(** * editingchecks: contextual checks on typographic punctuation

    A shallow embedding of [editingchecks.py] (helpers [findall],
    [findall_blank], the punctuation verifier [verify], the report driver
    [runchecks] and the command line entry [main]) together with the
    properties of the verifier and of the three checkers.

    Python strings are sequences of Unicode code points: a character is its
    code point, a string a list of code points.  Evaluation is carried out
    in a small writer/exception monad whose log records what is printed on
    the two output channels and, for the verifier, which positions of the
    two context strings are subscripted. *)

From Stdlib Require Import ZArith List Bool Lia String Ascii Sorted.
From Stdlib Require Import DecimalString HexadecimalString.
Import ListNotations.
Local Open Scope Z_scope.

(** ** Strings *)

Definition char := Z.
Definition pystr := list char.

(** An ASCII literal as a string of code points. *)
Definition lit (s : string) : pystr :=
  map (fun a => Z.of_N (N_of_ascii a)) (list_ascii_of_string s).

Definition len {A} (s : list A) : Z := Z.of_nat (List.length s).

(** [s[i]] with Python's treatment of negative subscripts; [None] stands for
    a subscript out of range. *)
Definition subscript (s : pystr) (i : Z) : option char :=
  let j := if i <? 0 then i + len s else i in
  if (0 <=? j) && (j <? len s) then nth_error s (Z.to_nat j) else None.

(** [s[a:b]] for bounds that are not negative. *)
Definition slice (s : pystr) (a b : Z) : pystr :=
  firstn (Z.to_nat (b - a)) (skipn (Z.to_nat a) s).

Definition char_in (c : char) (s : list char) : bool :=
  existsb (Z.eqb c) s.

Fixpoint startswith (s p : pystr) : bool :=
  match p, s with
  | [], _ => true
  | _ :: _, [] => false
  | a :: p', b :: s' => (a =? b) && startswith s' p'
  end.

(** [p in s] for strings: [p] occurs in [s] as a contiguous substring. *)
Fixpoint contains (p s : pystr) : bool :=
  startswith s p ||
  match s with
  | [] => false
  | _ :: s' => contains p s'
  end.

(** [s.rstrip('\n')] *)
Fixpoint rstrip_nl (s : pystr) : pystr :=
  match s with
  | [] => []
  | c :: s' =>
      match rstrip_nl s' with
      | [] => if c =? 10 then [] else [c]
      | t => c :: t
      end
  end.

(** [str(n)] and [hex(n)] for integers. *)
Definition str_of_int (n : Z) : pystr :=
  lit (DecimalString.NilZero.string_of_int (Z.to_int n)).

Definition hex (n : Z) : pystr :=
  lit "0x" ++ lit (HexadecimalString.NilZero.string_of_uint (N.to_hex_uint (Z.to_N n))).

Fixpoint join (sep : pystr) (l : list pystr) : pystr :=
  match l with
  | [] => []
  | [x] => x
  | x :: rest => x ++ sep ++ join sep rest
  end.

(** ** Evaluation monad *)

Inductive side := Left_context | Right_context.

Inductive event :=
| Subscript (s : side) (i : Z)   (* a context string is subscripted *)
| Stdout (text : pystr)          (* text written on standard output *)
| Stderr (text : pystr).         (* text written on standard error *)

Inductive exn := IndexError | UnicodeDecodeError.

Inductive result (A : Type) :=
| Ok (a : A)
| Raise (e : exn).
Arguments Ok {A} a.
Arguments Raise {A} e.

Definition M (A : Type) : Type := list event * result A.

Definition ret {A} (a : A) : M A := ([], Ok a).

Definition bind {A B} (m : M A) (f : A -> M B) : M B :=
  match m with
  | (t, Ok a) => let (t', r) := f a in (t ++ t', r)
  | (t, Raise e) => (t, Raise e)
  end.

Notation "x <- m ;; k" := (bind m (fun x => k))
  (at level 61, m at next level, right associativity).
Notation "m ;;; k" := (bind m (fun _ => k))
  (at level 61, right associativity).

Definition log {A} (m : M A) : list event := fst m.
Definition outcome {A} (m : M A) : result A := snd m.

(** [print(text)], with the newline [print] appends. *)
Definition print (text : pystr) : M unit := ([Stdout (text ++ [10])], Ok tt).
(** [print(text, end='')] *)
Definition print_noend (text : pystr) : M unit := ([Stdout text], Ok tt).
(** [print(text, file=sys.stderr)] *)
Definition print_err (text : pystr) : M unit := ([Stderr (text ++ [10])], Ok tt).

(** [s[i]] for one of the two context strings of [verify]. *)
Definition at_ (sd : side) (s : pystr) (i : Z) : M char :=
  ([Subscript sd i],
   match subscript s i with Some c => Ok c | None => Raise IndexError end).

(** Python's [and] and [or] evaluate their right operand only when needed. *)
Definition and_ (a b : M bool) : M bool :=
  x <- a ;; if x then b else ret false.
Definition or_ (a b : M bool) : M bool :=
  x <- a ;; if x then ret true else b.
Infix "&&&" := and_ (at level 40, left associativity).
Infix "|||" := or_ (at level 50, left associativity).

Definition fmap {A B} (f : A -> B) (m : M A) : M B :=
  x <- m ;; ret (f x).

(** What has been written on each channel. *)
Fixpoint stdout_of (t : list event) : pystr :=
  match t with
  | [] => []
  | Stdout s :: t' => s ++ stdout_of t'
  | _ :: t' => stdout_of t'
  end.

Fixpoint stderr_of (t : list event) : pystr :=
  match t with
  | [] => []
  | Stderr s :: t' => s ++ stderr_of t'
  | _ :: t' => stderr_of t'
  end.

Definition subscripted (sd : side) (i : Z) (t : list event) : Prop :=
  In (Subscript sd i) t.

(** ** Settings *)

Definition en_dash : char := 8211.
Definition em_dash : char := 8212.
Definition lsquo : char := 8216.
Definition rsquo : char := 8217.
Definition ldquo : char := 8220.
Definition rdquo : char := 8221.
Definition hellip : char := 8230.

Definition CHARS_WORTH_CHECKING : list char :=
  [8211; 8212; 34; 39; 8216; 8217; 8220; 8221; 8230].

Definition PUNCTUATION : list char :=
  [46; 44; 63; 33; em_dash; hellip].

Definition SNIPPET_RADIUS : Z := 10.

Definition defined : list char :=
  [8211; 8212; 8216; 8217; 8220; 8221; 8230].

(** ** Character classes and the runtime

    [str.isspace] holds of the code points below.  [str.isalpha] holds of
    the letters; on ASCII these are the two Latin alphabets, and the
    classification of the remaining code points is a table of the Unicode
    database.  That table, the names of the characters and the printer of
    the module [inventory] come with the runtime of the program. *)

Definition isspace (c : char) : bool :=
  ((9 <=? c) && (c <=? 13)) || ((28 <=? c) && (c <=? 32)) ||
  (c =? 133) || (c =? 160) || (c =? 5760) ||
  ((8192 <=? c) && (c <=? 8202)) || (c =? 8232) || (c =? 8233) ||
  (c =? 8239) || (c =? 8287) || (c =? 12288).

Class Runtime := {
  (** the letters beyond ASCII *)
  alpha_ext : char -> bool;
  (** [unicodedata.name]: the name of a character, when it has one *)
  unicode_name : char -> option pystr;
  (** what [prettyprint] of the module [inventory] writes on standard
      output, given the sorted inventory *)
  prettyprint : list char -> pystr
}.

Section Editingchecks.

Context {rt : Runtime}.

Definition isalpha (c : char) : bool :=
  if c <? 128
  then ((65 <=? c) && (c <=? 90)) || ((97 <=? c) && (c <=? 122))
  else alpha_ext c.

(** ** Helper functions *)

Fixpoint findall_from (i : Z) (s : pystr) (character : char) : list Z :=
  match s with
  | [] => []
  | item :: s' =>
      if item =? character then i :: findall_from (i + 1) s' character
      else findall_from (i + 1) s' character
  end.

Definition findall (s : pystr) (character : char) : list Z :=
  findall_from 0 s character.

Fixpoint findall_blank_from (i : Z) (s : pystr) : list Z :=
  match s with
  | [] => []
  | item :: s' =>
      if isspace item then i :: findall_blank_from (i + 1) s'
      else findall_blank_from (i + 1) s'
  end.

Definition findall_blank (s : pystr) : list Z := findall_blank_from 0 s.

(** ** The punctuation verifier *)

Definition undefined_message (character : char) : pystr :=
  lit "Error in /verify/: Checks for " ++ [character] ++ lit " (hex " ++
  hex character ++ lit ") have not been defined".

Definition pad_left (left_context : pystr) : pystr :=
  if len left_context <? 2
  then repeat 32 (Z.to_nat (2 - len left_context)) ++ left_context
  else left_context.

Definition pad_right (right_context : pystr) : pystr :=
  if len right_context <? 2
  then right_context ++ repeat 32 (Z.to_nat (2 - len right_context))
  else right_context.

Definition is_ (c : char) (m : M char) : M bool := fmap (fun x => x =? c) m.
Definition alpha (m : M char) : M bool := fmap isalpha m.
Definition space (m : M char) : M bool := fmap isspace m.
Definition alpha_or_punct (sd : side) (s : pystr) (i : Z) : M bool :=
  alpha (at_ sd s i) ||| fmap (fun x => char_in x PUNCTUATION) (at_ sd s i).

Definition verify (character : char) (left_context right_context : pystr)
  : M bool :=
  let L := at_ Left_context in
  let R := at_ Right_context in
  if negb (char_in character defined) then
    print_err (undefined_message character) ;;; ret false
  else if character =? 8230 then
    let left_context := pad_left left_context in
    let right_context := pad_right right_context in
    (is_ 91 (L left_context (-1)) &&& is_ 93 (R right_context 0)) |||
    (alpha (L left_context (-2)) &&& space (L left_context (-1))
       &&& space (R right_context 0) &&& alpha (R right_context 1)) |||
    (alpha (L left_context (-2)) &&& space (L left_context (-1))
       &&& is_ 8221 (R right_context 0)) |||
    (is_ 8220 (L left_context 0)
       &&& space (R right_context 0) &&& alpha (R right_context 1))
  else if character =? 8212 then
    alpha (L left_context (-1)) &&& alpha (R right_context 0)
  else if character =? 8211 then
    (alpha (L left_context (-1)) &&& alpha (R right_context 0)) |||
    (alpha (L left_context (-2)) &&& space (L left_context (-1))
       &&& space (R right_context 0) &&& alpha (R right_context 1))
  else if (character =? 8216) || (character =? 8220) then
    if (0 <? len left_context) && (0 <? len right_context) then
      space (L left_context (-1)) &&& alpha (R right_context 0)
    else if len left_context =? 0 then
      alpha (R right_context 0)
    else ret false
  else if character =? 8217 then
    if (0 <? len left_context) && (0 <? len right_context) then
      (alpha_or_punct Left_context left_context (-1)
         &&& space (R right_context 0)) |||
      (alpha (L left_context (-1)) &&& alpha (R right_context 0))
    else if len right_context =? 0 then
      alpha_or_punct Left_context left_context (-1)
    else ret false
  else (* character = 8221, the last of [defined] *)
    if (0 <? len left_context) && (0 <? len right_context) then
      alpha_or_punct Left_context left_context (-1)
        &&& space (R right_context 0)
    else if len right_context =? 0 then
      alpha_or_punct Left_context left_context (-1)
    else ret false.

(** ** The report driver *)

Fixpoint enumerate_from {A} (i : Z) (l : list A) : list (Z * A) :=
  match l with
  | [] => []
  | x :: rest => (i, x) :: enumerate_from (i + 1) rest
  end.

Definition enumerate {A} (l : list A) : list (Z * A) := enumerate_from 0 l.

(** [itertools.groupby]: the maximal blocks of adjacent elements with the
    same key, each with its key. *)
Fixpoint groupby {A} (key : A -> Z) (l : list A) : list (Z * list A) :=
  match l with
  | [] => []
  | x :: rest =>
      match groupby key rest with
      | (k, g) :: gs =>
          if key x =? k then (k, x :: g) :: gs
          else (key x, [x]) :: (k, g) :: gs
      | [] => [(key x, [x])]
      end
  end.

Fixpoint for_each {A} (l : list A) (body : A -> M unit) : M unit :=
  match l with
  | [] => ret tt
  | x :: rest => body x ;;; for_each rest body
  end.

(** Sets of integers: [set_add] keeps one copy of each element, in no
    particular order; [sorted] brings the elements in ascending order. *)
Definition set_add (x : Z) (s : list Z) : list Z :=
  if char_in x s then s else x :: s.

Fixpoint insert_sorted (x : Z) (l : list Z) : list Z :=
  match l with
  | [] => [x]
  | y :: rest => if x <=? y then x :: l else y :: insert_sorted x rest
  end.

Definition sorted (l : list Z) : list Z := fold_right insert_sorted [] l.

(** *** Blank space *)

(** The groups of consecutive blank positions with more than one element. *)
Definition blank_sequences (blanks : list Z) : list (list Z) :=
  filter (fun blanks_group => 1 <? len blanks_group)
    (map (fun kg => map snd (snd kg))
       (groupby (fun x => fst x - snd x) (enumerate blanks))).

Definition line_header (index : Z) : pystr :=
  lit "Line " ++ str_of_int (index + 1) ++ lit ":".

Definition sequence_report (sequence : list Z) : pystr :=
  lit "   Position " ++ str_of_int (hd 0 sequence) ++
  lit ", blank sequence of length " ++ str_of_int (len sequence).

Definition trailing_report (index : Z) : pystr :=
  lit "NB: blank at end of line " ++ str_of_int (index + 1).

(** The body of the first loop of [runchecks]; [sequence[0]] and
    [blanks[-1]] are taken of lists that are not empty there. *)
Definition check_blanks_line (index : Z) (line : pystr) : M unit :=
  let line := rstrip_nl line in
  let blanks := findall_blank line in
  if len blanks =? 0 then ret tt
  else
    let sequences := blank_sequences blanks in
    print_for_this_line <-
      (if 0 <? len sequences then
         print (line_header index) ;;;
         for_each sequences (fun sequence => print (sequence_report sequence)) ;;;
         ret true
       else ret false) ;;
    print_for_this_line <-
      (if last blanks 0 =? len line - 1 then
         print (trailing_report index) ;;; ret true
       else ret print_for_this_line) ;;
    if print_for_this_line then print [] else ret tt.

Definition check_blanks (lines : list pystr) : M unit :=
  print (lit "Checking for blank space problems:") ;;;
  for_each (enumerate lines) (fun il => check_blanks_line (fst il) (snd il)) ;;;
  print (lit "Done with blanks check." ++ [10]).

(** *** Periods *)

Definition two_periods : pystr := lit "..".
Definition unpadded : pystr := lit "...".
Definition padded : pystr := lit ". . .".

Definition bad_periods (line : pystr) : bool :=
  contains two_periods line || contains unpadded line || contains padded line.

Definition flag_line (s : list Z) (il : Z * pystr) : list Z :=
  if bad_periods (snd il) then set_add (fst il + 1) s else s.

Definition found_in_lines (lines : list pystr) : list Z :=
  fold_left flag_line (enumerate lines) [].

Definition check_periods (lines : list pystr) : M unit :=
  print (lit "Checking for bad periods and unconverted ellipses:") ;;;
  (if 0 <? len (found_in_lines lines) then
     let print_list := sorted (found_in_lines lines) in
     print (lit "   Possible bad periods or unconverted ellipses found in lines:") ;;;
     print_noend (lit "   ") ;;;
     print (join (lit ", ") (map str_of_int print_list))
   else
     print (lit "   No bad periods or suspicious unconverted ellipses found.")) ;;;
  print (lit "Done with bad period and unconverted ellipsis check." ++ [10]).

(** *** Characters in context *)

Definition left_extent (position : Z) : Z :=
  if position <? SNIPPET_RADIUS then 0 else position - SNIPPET_RADIUS.

Definition left_of (line : pystr) (position : Z) : pystr :=
  slice line (left_extent position) position.

Definition right_of (line : pystr) (position : Z) : pystr :=
  slice line (position + 1) (position + 1 + SNIPPET_RADIUS).

Definition flagged (position : Z) (left_context : pystr) (item : char)
    (right_context : pystr) : pystr :=
  lit "  pos " ++ str_of_int position ++ lit ": ..." ++
  left_context ++ [item] ++ right_context ++ lit "..." ++ [10].

Record line_state := {
  any_unverified : bool;
  unverified_this_line : bool;
  buffer : pystr
}.

(** The body of the loop over the positions of [item] in a line. *)
Definition check_position (item : char) (line : pystr) (position : Z)
    (st : line_state) : M line_state :=
  let left_context := left_of line position in
  let right_context := right_of line position in
  verified <- verify item left_context right_context ;;
  if verified then ret st
  else ret {| any_unverified := true;
              unverified_this_line := true;
              buffer := buffer st ++
                        flagged position left_context item right_context |}.

Fixpoint check_positions (item : char) (line : pystr) (positions : list Z)
    (st : line_state) : M line_state :=
  match positions with
  | [] => ret st
  | position :: rest =>
      st' <- check_position item line position st ;;
      check_positions item line rest st'
  end.

(** The body of the loop over the lines, for one [item]; the two flags are
    [found_any] and [any_unverified]. *)
Definition check_line (item : char) (index : Z) (line : pystr)
    (flags : bool * bool) : M (bool * bool) :=
  let line := rstrip_nl line in
  if char_in item line then
    st <- check_positions item line (findall line item)
            {| any_unverified := snd flags;
               unverified_this_line := false;
               buffer := line_header index ++ [10] |} ;;
    (if unverified_this_line st then print (buffer st) else ret tt) ;;;
    ret (true, any_unverified st)
  else ret flags.

Fixpoint check_lines (item : char) (ils : list (Z * pystr))
    (flags : bool * bool) : M (bool * bool) :=
  match ils with
  | [] => ret flags
  | (index, line) :: rest =>
      flags' <- check_line item index line flags ;;
      check_lines item rest flags'
  end.

Definition searching (item : char) : pystr :=
  match unicode_name item with
  | Some name => lit "Searching for " ++ [item] ++ lit ", " ++ name ++ lit ":"
  | None => lit "Searching for " ++ [item] ++ lit ", (no Unicode name):"
  end.

Definition check_item (lines : list pystr) (item : char) : M unit :=
  print (searching item) ;;;
  flags <- check_lines item (enumerate lines) (false, false) ;;
  (if negb (fst flags) then print (lit "None found.")
   else if negb (snd flags) then print (lit "All occurrences verified.")
   else ret tt) ;;;
  print [].

Definition runchecks (lines : list pystr) (charlist : list char) : M Z :=
  check_blanks lines ;;;
  check_periods lines ;;;
  for_each charlist (check_item lines) ;;;
  ret 0.

(** ** The command line *)

(** Modelled from the spec: [getinventory] of the module [inventory], which
    is not part of the sources at hand, "scans input lines and returns the
    distinct set of characters present". *)
Definition getinventory (lines : list pystr) : list char :=
  fold_left (fun s c => set_add c s) (List.concat lines) [].

Inductive read_result :=
| Lines (lines : list pystr)   (* [readlines] succeeds *)
| IOError                      (* opening or reading fails *)
| DecodeError.                 (* the bytes are not UTF-8 *)

(** What the process sees of its environment: its arguments, the file
    system and the clock ([now] is the text of [datetime.datetime.now()]). *)
Record world := {
  argv : list pystr;
  isfile : pystr -> bool;
  readlines : pystr -> read_result;
  now : pystr
}.

(** How the process ends: [exit(code)], or a traceback of an exception
    nobody caught. *)
Inductive termination :=
| Exit (code : Z)
| Uncaught (e : exn).

Definition exit_status (t : termination) : Z :=
  match t with
  | Exit code => code
  | Uncaught _ => 1
  end.

Definition started (w : world) (filename : pystr) : pystr :=
  lit "Started at " ++ now w ++ lit ", checking file " ++ filename ++ lit ":".

Definition chars_to_check (char_inventory : list char) : list char :=
  sorted
    (fold_right set_add
       (filter (fun c => negb (char_in c (map Z.of_nat (seq 0 128)))) char_inventory)
       (filter (fun c => char_in c CHARS_WORTH_CHECKING) char_inventory)).

Definition main (w : world) : list event * termination :=
  if negb (len (argv w) =? 2) then
    (log (print (lit "Usage: editingchecks.py text_file")), Exit 1)
  else
    let filename := nth 1 (argv w) [] in
    if negb (isfile w filename) then
      (log (print (lit "File path " ++ filename ++ lit " does not exist. Exiting...")),
       Exit 1)
    else
      let t0 := log (print (started w filename)) ++
                log (print_noend (lit "Reading file for inventory... ")) in
      match readlines w filename with
      | IOError =>
          (t0 ++ log (print (lit "Could not read " ++ filename)), Exit 1)
      | DecodeError => (t0, Uncaught UnicodeDecodeError)
      | Lines lines =>
          let t1 := t0 ++ log (print (lit "done." ++ [10])) in
          let char_inventory := getinventory lines in
          let t2 := t1 ++ [Stdout (prettyprint (sorted char_inventory))] in
          match runchecks lines (chars_to_check char_inventory) with
          | (t3, Ok exitcode) =>
              if exitcode =? 0 then
                (t2 ++ t3 ++ log (print (lit "Finished with no errors.")), Exit 0)
              else
                (t2 ++ t3 ++ log (print (lit "Finished with errors.")), Exit exitcode)
          | (t3, Raise e) => (t2 ++ t3, Uncaught e)
          end
      end.

(** ** Notions used in the statements *)

(** The line "He said—truly—it was fine." *)
Definition he_said : pystr :=
  lit "He said" ++ [em_dash] ++ lit "truly" ++ [em_dash] ++ lit "it was fine.".

(** The snippets of all the [positions] of a line, as they are appended to
    the buffer. *)
Definition flagged_all (item : char) (line : pystr) (positions : list Z)
  : pystr :=
  List.concat
    (map (fun position =>
            flagged position (left_of line position) item
              (right_of line position)) positions).

(** The rule of the ellipsis as the code evaluates it: [chr(8221) or
    chr(8217)] is [chr(8221)], [chr(8220) or chr(8216)] is [chr(8220)], and
    the opening quotation mark is looked for at the first position of the
    left context. *)
Definition hellip_as_coded (l r : pystr) : bool :=
  let l := pad_left l in
  let r := pad_right r in
  let l1 := last l 0 in
  let l2 := last (removelast l) 0 in
  let r0 := hd 0 r in
  let r1 := hd 0 (tl r) in
  ((l1 =? 91) && (r0 =? 93)) ||
  (isalpha l2 && isspace l1 && isspace r0 && isalpha r1) ||
  (isalpha l2 && isspace l1 && (r0 =? rdquo)) ||
  ((hd 0 l =? ldquo) && isspace r0 && isalpha r1).

(** The rule of the ellipsis as the specification words it: either closing
    quotation mark immediately on the right, either opening quotation mark
    immediately on the left. *)
Definition hellip_as_specified (l r : pystr) : bool :=
  let l := pad_left l in
  let r := pad_right r in
  let l1 := last l 0 in
  let l2 := last (removelast l) 0 in
  let r0 := hd 0 r in
  let r1 := hd 0 (tl r) in
  ((l1 =? 91) && (r0 =? 93)) ||
  (isalpha l2 && isspace l1 && isspace r0 && isalpha r1) ||
  (isalpha l2 && isspace l1 && ((r0 =? rdquo) || (r0 =? rsquo))) ||
  (((l1 =? ldquo) || (l1 =? lsquo)) && isspace r0 && isalpha r1).

(** A document whose only line starts with an em dash. *)
Definition dash_at_start : list pystr := [em_dash :: lit "and then"].

(** A line that a left double quote opens, a digit right after it. *)
Definition quote_then_digit : pystr := ldquo :: lit "1984 was".

(** A document whose only line is a left double quote. *)
Definition quote_alone : list pystr := [[ldquo; 10]].

(** The first disjunct of the en dash rule. *)
Definition en_dash_joins_letters (l r : pystr) : M bool :=
  alpha (at_ Left_context l (-1)) &&& alpha (at_ Right_context r 0).

(** The first three conjuncts of the second disjunct hold. *)
Definition en_dash_between_spaces (l r : pystr) : bool :=
  match subscript l (-2), subscript l (-1), subscript r 0 with
  | Some a, Some b, Some c => isalpha a && isspace b && isspace c
  | _, _, _ => false
  end.

(** [p] is a contiguous part of [s]. *)
Definition occurs_in (p s : pystr) : Prop :=
  exists before after, s = before ++ p ++ after.

Definition odd_line : pystr := lit "This is odd. . . really".

(** Position [j] of [s] holds a blank, the first character of [s] being at
    position [i]. *)
Definition blank_from (i : Z) (s : pystr) (j : Z) : Prop :=
  i <= j /\ exists c, nth_error s (Z.to_nat (j - i)) = Some c /\ isspace c = true.

(** [n] blanks from position [start] on, with no blank right before and no
    blank right after. *)
Definition maximal_run_from (i : Z) (s : pystr) (start n : Z) : Prop :=
  0 < n /\ i <= start /\
  (forall j, start <= j < start + n -> blank_from i s j) /\
  ~ blank_from i s (start - 1) /\ ~ blank_from i s (start + n).

(** The same for a whole line, positions counted from 0. *)
Definition maximal_blank_run (line : pystr) (start n : Z) : Prop :=
  maximal_run_from 0 line start n.

(** The last character of the line is a blank. *)
Definition ends_with_blank (line : pystr) : Prop :=
  exists s c, line = s ++ [c] /\ isspace c = true.

(** Start and length of the sequences that [check_blanks_line] reports. *)
Definition reported_runs (line : pystr) : list (Z * Z) :=
  map (fun sequence => (hd 0 sequence, len sequence))
    (blank_sequences (findall_blank line)).

(** The line printed for a run, given by its start and its length. *)
Definition run_report (run : Z * Z) : pystr :=
  lit "   Position " ++ str_of_int (fst run) ++
  lit ", blank sequence of length " ++ str_of_int (snd run).

(** The runs of blanks of a line, read off the line itself. *)
Fixpoint runs_from (i : Z) (s : pystr) : list (Z * Z) :=
  match s with
  | [] => []
  | c :: s' =>
      if isspace c then
        match runs_from (i + 1) s' with
        | (p, n) :: rs => if p =? i + 1 then (i, n + 1) :: rs
                          else (i, 1) :: (p, n) :: rs
        | [] => [(i, 1)]
        end
      else runs_from (i + 1) s'
  end.

(** Start and length of a group of [groupby]. *)
Definition summary (kg : Z * list (Z * Z)) : Z * Z :=
  (hd 0 (map snd (snd kg)), len (map snd (snd kg))).

(** The order in which runs are reported. *)
Definition starts_before (a b : Z * Z) : Prop := fst a < fst b.

Definition twice_spaced : pystr := lit "  twice  spaced".

(** What [check_blanks_line] writes for a line, given the runs it reports
    and whether it warns of a trailing blank. *)
Definition blank_findings (index : Z) (runs : list (Z * Z)) (trailing : bool)
  : list event :=
  match runs with
  | [] => []
  | _ => Stdout (line_header index ++ [10]) ::
         map (fun run => Stdout (run_report run ++ [10])) runs
  end ++
  (if trailing then [Stdout (trailing_report index ++ [10])] else []) ++
  match runs, trailing with
  | [], false => []
  | _, _ => [Stdout [10]]
  end.

(** The runs of two blanks or more of a line, each with its start and its
    length. *)
Definition long_runs (line : pystr) : list (Z * Z) :=
  filter (fun run => 1 <? snd run) (runs_from 0 line).

(** The last character of the line is a blank, as a test. *)
Definition blank_at_end (line : pystr) : bool :=
  match rev line with
  | c :: _ => isspace c
  | [] => false
  end.

(** What the check for blank space is to write for the line with the given
    number, the first line of the document having the number 1: a header
    and one entry for each run of two blanks or more, the warning about a
    blank at the end of the line, and an empty line after either. *)
Definition blank_report (number : Z) (line : pystr) : list event :=
  match long_runs line with
  | [] => []
  | runs =>
      Stdout (lit "Line " ++ str_of_int number ++ lit ":" ++ [10]) ::
      map (fun run =>
             Stdout (lit "   Position " ++ str_of_int (fst run) ++
                     lit ", blank sequence of length " ++
                     str_of_int (snd run) ++ [10])) runs
  end ++
  (if blank_at_end line
   then [Stdout (lit "NB: blank at end of line " ++ str_of_int number ++ [10])]
   else []) ++
  match long_runs line, blank_at_end line with
  | [], false => []
  | _, _ => [Stdout [10]]
  end.

(** The lines of a document with their numbers, from 1 on. *)
Definition numbered (lines : list pystr) : list (Z * pystr) :=
  combine (map Z.of_nat (seq 1 (List.length lines))) lines.

(** A document of three lines: nothing to report in the first, two runs of
    blanks in the second, a blank at the end of the third. *)
Definition blank_samples : list pystr :=
  [lit "fine" ++ [10]; lit "  twice  spaced" ++ [10];
   lit "end of sentence " ++ [10]].

(** Two runs see the same arguments and the same file. *)
Definition same_input (w1 w2 : world) : Prop :=
  argv w1 = argv w2 /\
  isfile w1 (nth 1 (argv w1) []) = isfile w2 (nth 1 (argv w2) []) /\
  readlines w1 (nth 1 (argv w1) []) = readlines w2 (nth 1 (argv w2) []).

(** The verdict on the occurrence at [position], [false] standing in when
    [verify] raises. *)
Definition verdict_at (item : char) (line : pystr) (position : Z) : bool :=
  match outcome (verify item (left_of line position) (right_of line position)) with
  | Ok verdict => verdict
  | Raise _ => false
  end.

(** [verify] comes back with a verdict on the occurrence at [position]. *)
Definition answers_at (item : char) (line : pystr) (position : Z) : Prop :=
  exists verdict,
    outcome (verify item (left_of line position) (right_of line position))
    = Ok verdict.

(** The occurrence at [position] has two characters of its line or more on
    either side. *)
Definition inside_line (line : pystr) (position : Z) : Prop :=
  2 <= position /\ position + 2 < len line.

Definition is_subscript (e : event) : bool :=
  match e with
  | Subscript _ _ => true
  | _ => false
  end.

(** The positions of [item] in a line at which it is not verified. *)
Definition unverified_in (item : char) (line : pystr) : list Z :=
  filter (fun position => negb (verdict_at item line position))
    (findall line item).

(** What the third loop of [runchecks] prints for a line: nothing, or the
    header of the line and the snippets of the unverified occurrences. *)
Definition line_findings (item : char) (index : Z) (line : pystr) : pystr :=
  match unverified_in item (rstrip_nl line) with
  | [] => []
  | positions =>
      line_header index ++ [10] ++
      flagged_all item (rstrip_nl line) positions ++ [10]
  end.

(** The line that closes the report on [item]. *)
Definition item_summary (item : char) (lines : list pystr) : pystr :=
  if negb (existsb (fun line => char_in item (rstrip_nl line)) lines) then
    lit "None found." ++ [10]
  else if forallb (fun line => match unverified_in item (rstrip_nl line) with
                               | [] => true
                               | _ => false
                               end) lines then
    lit "All occurrences verified." ++ [10]
  else [].

(** A computation that writes on neither channel. *)
Definition quiet {A} (m : M A) : Prop := forallb is_subscript (log m) = true.

(** The rule of the right quotation marks on the character before and the
    character after; the apostrophe between two letters is for the single
    quote only. *)
Definition closes_word (before : char) : bool :=
  isalpha before || char_in before PUNCTUATION.

End Editingchecks.

(** * A sample runtime and sample documents

    The letters of the Latin-1 supplement (the sample documents hold no
    letter beyond it), the Unicode names of the characters the driver looks
    for, and an inventory printer that writes the characters on one line. *)

Definition latin1_letters (c : char) : bool :=
  (c =? 170) || (c =? 181) || (c =? 186) ||
  ((192 <=? c) && (c <=? 214)) || ((216 <=? c) && (c <=? 246)) ||
  ((248 <=? c) && (c <=? 255)).

Definition sample_names (c : char) : option pystr :=
  if c =? 34 then Some (lit "QUOTATION MARK")
  else if c =? 39 then Some (lit "APOSTROPHE")
  else if c =? 8211 then Some (lit "EN DASH")
  else if c =? 8212 then Some (lit "EM DASH")
  else if c =? 8216 then Some (lit "LEFT SINGLE QUOTATION MARK")
  else if c =? 8217 then Some (lit "RIGHT SINGLE QUOTATION MARK")
  else if c =? 8220 then Some (lit "LEFT DOUBLE QUOTATION MARK")
  else if c =? 8221 then Some (lit "RIGHT DOUBLE QUOTATION MARK")
  else if c =? 8230 then Some (lit "HORIZONTAL ELLIPSIS")
  else None.

Definition sample_prettyprint (chars : list char) : pystr := chars ++ [10].

Definition sample_runtime : Runtime :=
  {| alpha_ext := latin1_letters;
     unicode_name := sample_names;
     prettyprint := sample_prettyprint |}.

Definition sample_main : world -> list event * termination :=
  @main sample_runtime.

(** A manuscript of three lines, checked at two different times. *)
Definition manuscript : list pystr :=
  [he_said ++ [10]; lit "This is odd. . . really" ++ [10];
   lit "end of sentence " ++ [10]].

Definition run_at (time : pystr) (args : list pystr) (file : read_result)
  : world :=
  {| argv := args;
     isfile := fun path => match file with IOError => false | _ => true end;
     readlines := fun _ => file;
     now := time |}.

Definition command : list pystr := [lit "editingchecks.py"; lit "book.txt"].

Definition morning : world :=
  run_at (lit "2020-05-27 09:00:00.000001") command (Lines manuscript).

Definition evening : world :=
  run_at (lit "2020-05-27 21:30:00.000001") command (Lines manuscript).

(** * Properties *)

Section Properties.

Context {rt : Runtime}.

Set Default Proof Using "Type".

(** Drops the runtime where a proof has no use for it. *)
Ltac forget_runtime := try clear rt.

(** ** Subscripts *)

Lemma len_app {A} (s t : list A) : len (s ++ t) = len s + len t.
Proof. unfold len. rewrite length_app. lia. Qed.

Lemma len_nonneg {A} (s : list A) : 0 <= len s.
Proof. unfold len. lia. Qed.

Lemma len_zero {A} (s : list A) : len s = 0 -> s = [].
Proof. destruct s; [reflexivity | unfold len; simpl; lia]. Qed.

Lemma subscript_nil i : subscript [] i = None.
Proof.
  unfold subscript, len. simpl.
  destruct (i <? 0) eqn:E; [apply Z.ltb_lt in E | apply Z.ltb_ge in E].
  - replace (0 <=? i + 0) with false by (symmetry; apply Z.leb_gt; lia).
    reflexivity.
  - replace (i <? 0) with false by (symmetry; apply Z.ltb_ge; lia).
    rewrite andb_false_r. reflexivity.
Qed.

Lemma subscript_first c s : subscript (c :: s) 0 = Some c.
Proof.
  unfold subscript. change (0 <? 0) with false. cbv iota. change (0 <=? 0) with true.
  replace (0 <? len (c :: s)) with true; [reflexivity |].
  symmetry. apply Z.ltb_lt. unfold len. simpl. lia.
Qed.

Lemma subscript_second a b s : subscript (a :: b :: s) 1 = Some b.
Proof.
  unfold subscript. change (1 <? 0) with false. cbv iota. change (0 <=? 1) with true.
  replace (1 <? len (a :: b :: s)) with true; [reflexivity |].
  symmetry. apply Z.ltb_lt. unfold len. simpl. lia.
Qed.

Lemma subscript_second_short a : subscript [a] 1 = None.
Proof. reflexivity. Qed.

Lemma subscript_last s c : subscript (s ++ [c]) (-1) = Some c.
Proof.
  unfold subscript. change (-1 <? 0) with true. cbv iota.
  rewrite len_app. change (len [c]) with 1.
  pose proof (len_nonneg s).
  replace (0 <=? -1 + (len s + 1)) with true by (symmetry; apply Z.leb_le; lia).
  replace (-1 + (len s + 1) <? len s + 1) with true by (symmetry; apply Z.ltb_lt; lia).
  simpl andb. cbv iota.
  replace (Z.to_nat (-1 + (len s + 1))) with (List.length s + 0)%nat
    by (unfold len; lia).
  rewrite nth_error_app2 by lia.
  replace (List.length s + 0 - List.length s)%nat with 0%nat by lia.
  reflexivity.
Qed.

Lemma subscript_before_last s a b : subscript (s ++ [a; b]) (-2) = Some a.
Proof.
  unfold subscript. change (-2 <? 0) with true. cbv iota.
  rewrite len_app. change (len [a; b]) with 2.
  pose proof (len_nonneg s).
  replace (0 <=? -2 + (len s + 2)) with true by (symmetry; apply Z.leb_le; lia).
  replace (-2 + (len s + 2) <? len s + 2) with true by (symmetry; apply Z.ltb_lt; lia).
  simpl andb. cbv iota.
  replace (Z.to_nat (-2 + (len s + 2))) with (List.length s + 0)%nat
    by (unfold len; lia).
  rewrite nth_error_app2 by lia.
  replace (List.length s + 0 - List.length s)%nat with 0%nat by lia.
  reflexivity.
Qed.

Lemma subscript_before_last_short a : subscript [a] (-2) = None.
Proof. reflexivity. Qed.

Lemma nonempty_last {A} (s : list A) :
  s <> [] -> exists s' c, s = s' ++ [c].
Proof.
  intros H. destruct (exists_last H) as (s' & c & E). eauto.
Qed.

Lemma last_snoc {A} (s : list A) c d : last (s ++ [c]) d = c.
Proof. apply last_last. Qed.

Create Rewrite HintDb subscripts.
#[local] Hint Rewrite subscript_nil subscript_first subscript_second
  subscript_second_short subscript_last subscript_before_last
  subscript_before_last_short : subscripts.

(** Unfolds the monadic operations of a verifier rule and evaluates the
    subscripts it meets. *)
Ltac run_rule :=
  unfold and_, or_, alpha_or_punct, alpha, space, is_, fmap, at_, bind, ret,
    outcome, log;
  autorewrite with subscripts; cbn [fst snd app].

(** ** The verifier, rule by rule *)

Lemma verify_undefined character l r :
  char_in character defined = false ->
  verify character l r =
  ([Stderr (undefined_message character ++ [10])], Ok false).
Proof. intros H. unfold verify. rewrite H. reflexivity. Qed.

Lemma verify_em_dash l r :
  verify em_dash l r = alpha (at_ Left_context l (-1)) &&& alpha (at_ Right_context r 0).
Proof. reflexivity. Qed.

Lemma verify_en_dash l r :
  verify en_dash l r =
  (alpha (at_ Left_context l (-1)) &&& alpha (at_ Right_context r 0)) |||
  (alpha (at_ Left_context l (-2)) &&& space (at_ Left_context l (-1)) &&& space (at_ Right_context r 0) &&& alpha (at_ Right_context r 1)).
Proof. reflexivity. Qed.

Lemma verify_left_quote character l r :
  character = lsquo \/ character = ldquo ->
  verify character l r =
  if (0 <? len l) && (0 <? len r) then space (at_ Left_context l (-1)) &&& alpha (at_ Right_context r 0)
  else if len l =? 0 then alpha (at_ Right_context r 0)
  else ret false.
Proof. intros [-> | ->]; reflexivity. Qed.

Lemma char_in_spec c s : char_in c s = true <-> In c s.
Proof.
  unfold char_in. rewrite existsb_exists. split.
  - intros (x & Hx & E). apply Z.eqb_eq in E. now subst.
  - intros H. exists c. split; [assumption | apply Z.eqb_refl].
Qed.

Lemma char_in_false c s : ~ In c s -> char_in c s = false.
Proof.
  intros H. destruct (char_in c s) eqn:E; [| reflexivity].
  apply char_in_spec in E. contradiction.
Qed.

Lemma em_dash_verdict l r :
  l <> [] -> r <> [] ->
  outcome (verify em_dash l r) = Ok (isalpha (last l 0) && isalpha (hd 0 r)).
Proof.
  intros Hl Hr. destruct (nonempty_last l Hl) as (l' & a & ->).
  destruct r as [| b r']; [congruence |].
  rewrite last_snoc, verify_em_dash. run_rule.
  destruct (isalpha a); reflexivity.
Qed.

(** *** Em dash *)

(** C4: between two contexts that are not empty, an em dash is verified
    exactly when the character before it and the character after it are
    both alphabetic; the two em dashes of the line "He said—truly—it was
    fine." (at positions 7 and 13) are both verified. *)
Theorem em_dash_rule l r :
  l <> [] -> r <> [] ->
  outcome (verify em_dash l r) = Ok (isalpha (last l 0) && isalpha (hd 0 r)) /\
  (outcome (verify em_dash l r) = Ok true <->
   isalpha (last l 0) = true /\ isalpha (hd 0 r) = true) /\
  findall he_said em_dash = [7; 13] /\
  Forall (fun position =>
            outcome (verify em_dash (left_of he_said position)
                       (right_of he_said position)) = Ok true)
    (findall he_said em_dash).
Proof.
  intros Hl Hr. pose proof (em_dash_verdict l r Hl Hr) as E.
  split; [exact E |]. split.
  - rewrite E. split.
    + intros H. apply andb_true_iff. congruence.
    + intros H. apply andb_true_iff in H. now rewrite H.
  - split; [reflexivity |].
    change (findall he_said em_dash) with [7; 13].
    repeat constructor.
Qed.

(** *** Characters without a rule *)

Lemma check_positions_undefined item line positions st :
  char_in item defined = false ->
  check_positions item line positions st =
  (map (fun _ => Stderr (undefined_message item ++ [10])) positions,
   Ok {| any_unverified :=
           match positions with [] => any_unverified st | _ => true end;
         unverified_this_line :=
           match positions with [] => unverified_this_line st | _ => true end;
         buffer := buffer st ++ flagged_all item line positions |}).
Proof.
  intros H. revert st. induction positions as [| position rest IH]; intros st.
  - cbn. rewrite app_nil_r. now destruct st.
  - cbn [check_positions]. unfold check_position.
    rewrite (verify_undefined _ _ _ H).
    unfold bind, ret. cbn [fst snd app]. rewrite IH.
    cbn [any_unverified unverified_this_line buffer map flagged_all List.concat app].
    unfold flagged_all. rewrite <- app_assoc. now destruct rest.
Qed.

Lemma findall_from_nonempty i s c :
  char_in c s = true -> findall_from i s c <> [].
Proof.
  revert i. induction s as [| x s IH]; intros i H; [discriminate |].
  cbn in *. rewrite (Z.eqb_sym x c).
  destruct (c =? x); [discriminate | now apply IH].
Qed.

Lemma bind_outcome_ok {A B} (m : M A) (f : A -> M B) a :
  outcome m = Ok a -> outcome (bind m f) = outcome (f a).
Proof.
  destruct m as [t r]. unfold outcome, bind. cbn [snd]. intros ->.
  now destruct (f a).
Qed.

Lemma print_outcome text : outcome (print text) = Ok tt.
Proof. reflexivity. Qed.

Lemma check_line_undefined item index line flags :
  char_in item defined = false ->
  char_in item (rstrip_nl line) = true ->
  check_line item index line flags =
  (map (fun _ => Stderr (undefined_message item ++ [10]))
     (findall (rstrip_nl line) item) ++
   [Stdout (line_header index ++ [10] ++
            flagged_all item (rstrip_nl line) (findall (rstrip_nl line) item) ++
            [10])],
   Ok (true, true)).
Proof.
  intros H Hin. unfold check_line. rewrite Hin.
  rewrite (check_positions_undefined _ _ _ _ H).
  pose proof (findall_from_nonempty 0 _ _ Hin) as Hne.
  fold (findall (rstrip_nl line) item) in Hne.
  destruct (findall (rstrip_nl line) item) as [| p ps] eqn:E; [congruence |].
  unfold bind, ret, print.
  cbn [any_unverified unverified_this_line buffer fst snd].
  rewrite app_nil_r, <- !app_assoc. reflexivity.
Qed.

Lemma check_line_continues item index line flags :
  char_in item defined = false ->
  exists flags', outcome (check_line item index line flags) = Ok flags'.
Proof.
  intros H. destruct (char_in item (rstrip_nl line)) eqn:Hin.
  - rewrite (check_line_undefined _ _ _ _ H Hin). eexists. reflexivity.
  - unfold check_line. rewrite Hin. eexists. reflexivity.
Qed.

Lemma check_lines_undefined item ils flags :
  char_in item defined = false ->
  exists flags', outcome (check_lines item ils flags) = Ok flags'.
Proof.
  intros H. revert flags.
  induction ils as [| [index line] rest IH]; intros flags.
  - eexists. reflexivity.
  - cbn [check_lines].
    destruct (check_line_continues item index line flags H) as (f1 & E1).
    destruct (IH f1) as (f2 & E2). exists f2.
    now rewrite (bind_outcome_ok _ _ _ E1).
Qed.

(** C2: for a character that is none of the seven with a rule, [verify]
    writes one message on standard error, answers [False] and raises
    nothing; the driver then flags the occurrence with its snippet and goes
    on to the end of the document. *)
Theorem undefined_character_is_flagged character :
  ~ In character defined ->
  (forall l r,
     verify character l r =
     ([Stderr (undefined_message character ++ [10])], Ok false)) /\
  (forall line position st,
     check_position character line position st =
     ([Stderr (undefined_message character ++ [10])],
      Ok {| any_unverified := true;
            unverified_this_line := true;
            buffer := buffer st ++
                      flagged position (left_of line position) character
                        (right_of line position) |})) /\
  (forall index line flags,
     In character (rstrip_nl line) ->
     check_line character index line flags =
     (map (fun _ => Stderr (undefined_message character ++ [10]))
        (findall (rstrip_nl line) character) ++
      [Stdout (line_header index ++ [10] ++
               flagged_all character (rstrip_nl line)
                 (findall (rstrip_nl line) character) ++ [10])],
      Ok (true, true))) /\
  (forall lines, outcome (check_item lines character) = Ok tt).
Proof.
  intros H. apply char_in_false in H. split; [| split; [| split]].
  - intros l r. now apply verify_undefined.
  - intros line position st. unfold check_position.
    now rewrite (verify_undefined _ _ _ H).
  - intros index line flags Hin. apply check_line_undefined; [exact H |].
    now apply char_in_spec.
  - intros lines. unfold check_item.
    erewrite bind_outcome_ok by apply print_outcome.
    destruct (check_lines_undefined character (enumerate lines) (false, false) H)
      as (flags & E).
    rewrite (bind_outcome_ok _ _ _ E).
    erewrite bind_outcome_ok; [reflexivity |].
    destruct (negb (fst flags)); [reflexivity |].
    destruct (negb (snd flags)); reflexivity.
Qed.

(** *** Outcome and log of the lazy connectives *)

Lemma outcome_bind {A B} (m : M A) (f : A -> M B) :
  outcome (bind m f) =
  match outcome m with Ok a => outcome (f a) | Raise e => Raise e end.
Proof.
  destruct m as [t [a | e]]; unfold outcome, bind; cbn [snd];
    [now destruct (f a) | reflexivity].
Qed.

Lemma log_bind {A B} (m : M A) (f : A -> M B) :
  log (bind m f) =
  log m ++ match outcome m with Ok a => log (f a) | Raise _ => [] end.
Proof.
  destruct m as [t [a | e]]; unfold outcome, log, bind; cbn [fst snd];
    [now destruct (f a) | now rewrite app_nil_r].
Qed.

Lemma outcome_and a b :
  outcome (a &&& b) =
  match outcome a with
  | Ok true => outcome b
  | Ok false => Ok false
  | Raise e => Raise e
  end.
Proof.
  unfold and_. rewrite outcome_bind. now destruct (outcome a) as [[|] |].
Qed.

Lemma outcome_or a b :
  outcome (a ||| b) =
  match outcome a with
  | Ok true => Ok true
  | Ok false => outcome b
  | Raise e => Raise e
  end.
Proof.
  unfold or_. rewrite outcome_bind. now destruct (outcome a) as [[|] |].
Qed.

Lemma log_and a b :
  log (a &&& b) =
  log a ++ match outcome a with Ok true => log b | _ => [] end.
Proof.
  unfold and_. rewrite log_bind. now destruct (outcome a) as [[|] |].
Qed.

Lemma log_or a b :
  log (a ||| b) =
  log a ++ match outcome a with Ok false => log b | _ => [] end.
Proof.
  unfold or_. rewrite log_bind. now destruct (outcome a) as [[|] |].
Qed.

Lemma outcome_fmap {A B} (f : A -> B) m :
  outcome (fmap f m) =
  match outcome m with Ok x => Ok (f x) | Raise e => Raise e end.
Proof. unfold fmap. rewrite outcome_bind. now destruct (outcome m). Qed.

Lemma log_fmap {A B} (f : A -> B) m : log (fmap f m) = log m.
Proof.
  unfold fmap. rewrite log_bind.
  destruct (outcome m); cbn; now rewrite app_nil_r.
Qed.

Lemma outcome_at sd s i :
  outcome (at_ sd s i) =
  match subscript s i with Some c => Ok c | None => Raise IndexError end.
Proof. reflexivity. Qed.

Lemma log_at sd s i : log (at_ sd s i) = [Subscript sd i].
Proof. reflexivity. Qed.

Lemma outcome_ret {A} (a : A) : outcome (ret a) = Ok a.
Proof. reflexivity. Qed.

Create Rewrite HintDb rule.
#[local] Hint Rewrite outcome_and outcome_or log_and log_or
  (@outcome_fmap char bool) (@log_fmap char bool) outcome_at log_at
  (@outcome_ret bool) : rule.

(** Reduces the outcome (and the log) of a rule to the characters it
    reads. *)
Ltac eval_rule :=
  unfold alpha_or_punct, alpha, space, is_;
  autorewrite with rule; autorewrite with subscripts; cbv beta iota.

Ltac case_bools :=
  repeat match goal with
         | |- context [if ?b then _ else _] => destruct b
         | |- context [match ?b with true => _ | false => _ end] => destruct b
         end.

Lemma subscript_last_of_two s a b : subscript (s ++ [a; b]) (-1) = Some b.
Proof.
  change (s ++ [a; b]) with (s ++ [a] ++ [b]). rewrite app_assoc.
  apply subscript_last.
Qed.

#[local] Hint Rewrite subscript_last_of_two : subscripts.

Lemma subscript_head s : s <> [] -> subscript s 0 = Some (hd 0 s).
Proof. destruct s; [congruence | intros _; apply subscript_first]. Qed.

Lemma two_last {A} (s : list A) :
  2 <= len s -> exists s' a b, s = s' ++ [a; b].
Proof.
  intros H. destruct (nonempty_last s) as (s1 & b & ->).
  { intros ->. unfold len in H. simpl in H. lia. }
  destruct (nonempty_last s1) as (s2 & a & ->).
  { intros ->. unfold len in H. simpl in H. lia. }
  exists s2, a, b. now rewrite <- app_assoc.
Qed.

Lemma pad_left_len l : 2 <= len (pad_left l).
Proof.
  unfold pad_left. destruct (len l <? 2) eqn:E.
  - apply Z.ltb_lt in E. rewrite len_app. unfold len at 1.
    rewrite repeat_length. pose proof (len_nonneg l). lia.
  - apply Z.ltb_ge in E. exact E.
Qed.

Lemma pad_right_len r : 2 <= len (pad_right r).
Proof.
  unfold pad_right. destruct (len r <? 2) eqn:E.
  - apply Z.ltb_lt in E. rewrite len_app. unfold len at 2.
    rewrite repeat_length. pose proof (len_nonneg r). lia.
  - apply Z.ltb_ge in E. exact E.
Qed.

Lemma two_first {A} (s : list A) :
  2 <= len s -> exists a b s', s = a :: b :: s'.
Proof.
  destruct s as [| a [| b s']]; unfold len; simpl; try lia. eauto.
Qed.

(** *** Ellipsis *)

Lemma verify_hellip l r :
  verify hellip l r =
  let left_context := pad_left l in
  let right_context := pad_right r in
  (is_ 91 (at_ Left_context left_context (-1))
     &&& is_ 93 (at_ Right_context right_context 0)) |||
  (alpha (at_ Left_context left_context (-2))
     &&& space (at_ Left_context left_context (-1))
     &&& space (at_ Right_context right_context 0)
     &&& alpha (at_ Right_context right_context 1)) |||
  (alpha (at_ Left_context left_context (-2))
     &&& space (at_ Left_context left_context (-1))
     &&& is_ 8221 (at_ Right_context right_context 0)) |||
  (is_ 8220 (at_ Left_context left_context 0)
     &&& space (at_ Right_context right_context 0)
     &&& alpha (at_ Right_context right_context 1)).
Proof. reflexivity. Qed.

Lemma hellip_verdict l r :
  outcome (verify hellip l r) = Ok (hellip_as_coded l r).
Proof.
  rewrite verify_hellip. unfold hellip_as_coded. cbv zeta.
  destruct (two_last _ (pad_left_len l)) as (s & a & b & El).
  destruct (two_first _ (pad_right_len r)) as (c & d & r' & Er).
  assert (H0 : subscript (pad_left l) 0 = Some (hd 0 (pad_left l))).
  { apply subscript_head. rewrite El. now destruct s. }
  rewrite Er. eval_rule. rewrite H0. rewrite El.
  rewrite subscript_last_of_two, subscript_before_last.
  change (s ++ [a; b]) with (s ++ [a] ++ [b]). rewrite app_assoc.
  rewrite removelast_last, !last_snoc. cbn [hd tl].
  rewrite <- app_assoc. cbn [app].
  unfold rdquo, ldquo.
  destruct (b =? 91), (c =? 93), (isalpha a), (isspace b), (isspace c),
    (isalpha d), (c =? 8221), (hd 0 (s ++ [a; b]) =? 8220); reflexivity.
Qed.

(** C1: the ellipsis rule evaluated where the code and the stated rule part:
    after "a " and before a right single quote (clause c), and right after
    a left double quote that stands alone before " a" (clause d), the
    stated rule accepts and [verify] answers [False]; when the left double
    quote opens a longer left context, [verify] answers [True] although none
    of the stated clauses holds. *)
Theorem hellip_quotation_marks :
  (outcome (verify hellip (lit "a ") [rsquo]) = Ok false /\
   hellip_as_specified (lit "a ") [rsquo] = true) /\
  (outcome (verify hellip [ldquo] (lit " a")) = Ok false /\
   hellip_as_specified [ldquo] (lit " a") = true) /\
  (outcome (verify hellip (ldquo :: lit "xy") (lit " a")) = Ok true /\
   hellip_as_specified (ldquo :: lit "xy") (lit " a") = false).
Proof. repeat split; reflexivity. Qed.

(** *** Contexts at the boundary of a line *)

(** C3: [verify] at contexts the driver does hand over and on which no
    verdict comes back: an em dash or an en dash with nothing before it, and
    a quotation mark alone on its line, raise [IndexError]; a document whose
    line starts with an em dash takes the whole run down. *)
Theorem verify_raises_at_line_boundary :
  outcome (verify em_dash [] (lit "and then")) = Raise IndexError /\
  outcome (verify em_dash (lit "and then") []) = Raise IndexError /\
  outcome (verify en_dash [] (lit "and then")) = Raise IndexError /\
  outcome (verify lsquo [] []) = Raise IndexError /\
  outcome (verify rsquo [] []) = Raise IndexError /\
  outcome (verify ldquo [] []) = Raise IndexError /\
  outcome (verify rdquo [] []) = Raise IndexError /\
  findall (em_dash :: lit "and then") em_dash = [0] /\
  left_of (em_dash :: lit "and then") 0 = [] /\
  outcome (runchecks dash_at_start [em_dash]) = Raise IndexError.
Proof. repeat split; reflexivity. Qed.

(** Where both contexts have two characters or more, every rule answers. *)
Lemma verify_answers_on_long_contexts character l r :
  In character defined -> 2 <= len l -> 2 <= len r ->
  exists verdict, outcome (verify character l r) = Ok verdict.
Proof.
  intros Hc Hl Hr.
  destruct (two_last l Hl) as (s & a & b & ->).
  destruct (two_first r Hr) as (c & d & r' & ->).
  assert (Hpos : (0 <? len (s ++ [a; b])) && (0 <? len (c :: d :: r')) = true).
  { apply andb_true_iff. split; apply Z.ltb_lt; lia. }
  assert (H0 : subscript (s ++ [a; b]) 0 = Some (hd 0 (s ++ [a; b]))).
  { apply subscript_head. now destruct s. }
  cbn in Hc.
  destruct Hc as [<- | [<- | [<- | [<- | [<- | [<- | [<- | []]]]]]]].
  - rewrite verify_en_dash. eval_rule.
    case_bools; eexists; reflexivity.
  - rewrite verify_em_dash. eval_rule.
    case_bools; eexists; reflexivity.
  - rewrite (verify_left_quote lsquo) by (now left). rewrite Hpos.
    eval_rule.
    case_bools; eexists; reflexivity.
  - unfold verify. cbv beta iota zeta. change (negb (char_in 8217 defined)) with false.
    cbv iota. change (8217 =? 8230) with false. change (8217 =? 8212) with false.
    change (8217 =? 8211) with false.
    change ((8217 =? 8216) || (8217 =? 8220)) with false.
    change (8217 =? 8217) with true. cbv iota. rewrite Hpos.
    eval_rule.
    case_bools; eexists; reflexivity.
  - rewrite (verify_left_quote ldquo) by (now right). rewrite Hpos.
    eval_rule.
    case_bools; eexists; reflexivity.
  - unfold verify. cbv beta iota zeta. change (negb (char_in 8221 defined)) with false.
    cbv iota. change (8221 =? 8230) with false. change (8221 =? 8212) with false.
    change (8221 =? 8211) with false.
    change ((8221 =? 8216) || (8221 =? 8220)) with false.
    change (8221 =? 8217) with false. cbv iota. rewrite Hpos.
    eval_rule.
    case_bools; eexists; reflexivity.
  - eexists. apply hellip_verdict.
Qed.

(** *** Left quotation marks *)

(** X14: the rule of the left quotation marks in the cases in which a
    context is not empty.  Between two contexts that are not empty the mark
    is verified when whitespace stands before it and a letter after it; at
    the start of a line, when a letter stands after it; at the end of a line
    it is not verified. *)
Lemma left_quote_rule character l r :
  character = lsquo \/ character = ldquo ->
  (l <> [] -> r <> [] ->
   outcome (verify character l r) = Ok (isspace (last l 0) && isalpha (hd 0 r))) /\
  (l = [] -> r <> [] ->
   outcome (verify character l r) = Ok (isalpha (hd 0 r))) /\
  (l <> [] -> r = [] -> outcome (verify character l r) = Ok false).
Proof.
  intros Hc. rewrite (verify_left_quote _ l r Hc). repeat split.
  - intros Hl Hr. destruct (nonempty_last l Hl) as (s & a & ->).
    destruct r as [| b r']; [congruence |].
    replace ((0 <? len (s ++ [a])) && (0 <? len (b :: r'))) with true.
    2:{ symmetry. apply andb_true_iff.
        split; apply Z.ltb_lt; [rewrite len_app |]; pose proof (len_nonneg s);
          unfold len; simpl; unfold len in *; lia. }
    eval_rule. rewrite last_snoc. cbn [hd]. now destruct (isspace a).
  - intros -> Hr. destruct r as [| b r']; [congruence |].
    cbn [len List.length Z.of_nat Z.ltb Z.compare andb Z.eqb].
    eval_rule. reflexivity.
  - intros Hl ->. destruct l as [| a l']; [congruence |].
    rewrite andb_false_r.
    replace (len (a :: l') =? 0) with false; [reflexivity |].
    symmetry. apply Z.eqb_neq. unfold len. simpl. lia.
Qed.

(** A left double quote that opens a line and is followed by a digit is not
    verified and is printed with its snippet. *)
Lemma left_quote_before_digit :
  outcome (verify ldquo (left_of quote_then_digit 0) (right_of quote_then_digit 0))
  = Ok false /\
  stdout_of (log (check_line ldquo 0 quote_then_digit (false, false))) =
  lit "Line 1:" ++ [10] ++
  lit "  pos 0: ..." ++ [ldquo] ++ lit "1984 was..." ++ [10; 10].
Proof. split; reflexivity. Qed.

(** C5: a left quotation mark with nothing before it and nothing after it:
    the rule reads the first character of the empty right context, so
    [verify] raises [IndexError] where the rule gives the verdict [False];
    a document with a line made of a left double quote alone stops the run
    there. *)
Theorem left_quote_alone_raises :
  outcome (verify lsquo [] []) = Raise IndexError /\
  outcome (verify ldquo [] []) = Raise IndexError /\
  left_of (rstrip_nl [ldquo; 10]) 0 = [] /\
  right_of (rstrip_nl [ldquo; 10]) 0 = [] /\
  outcome (runchecks quote_alone [ldquo]) = Raise IndexError.
Proof. repeat split; reflexivity. Qed.

(** *** En dash *)

(** C10, as the code has it: when the first disjunct of the en dash rule is
    false, [verify] subscripts the left context at -2; it subscripts the
    right context at 1 exactly when the left context ends with a letter and
    a blank and the right context starts with a blank; with a left context
    of one character the subscript -2 is out of range and [verify] raises
    [IndexError], whatever the right context. *)
Theorem en_dash_second_disjunct l r :
  outcome (en_dash_joins_letters l r) = Ok false ->
  subscripted Left_context (-2) (log (verify en_dash l r)) /\
  (subscripted Right_context 1 (log (verify en_dash l r)) <->
   en_dash_between_spaces l r = true) /\
  (len l = 1 -> outcome (verify en_dash l r) = Raise IndexError).
Proof.
  forget_runtime.
  unfold en_dash_joins_letters, en_dash_between_spaces, subscripted.
  rewrite verify_en_dash. intros H.
  destruct l as [| x l0] using rev_ind.
  { revert H. eval_rule. discriminate. }
  clear IHl0.
  assert (Hlen : len (l0 ++ [x]) = 1 -> l0 = []).
  { rewrite len_app. change (len [x]) with 1. intros E.
    apply len_zero. lia. }
  destruct l0 as [| y l1] using rev_ind.
  - (* one character on the left *)
    cbn [app] in H, Hlen |- *. revert H. eval_rule.
    change (subscript [x] (-1)) with (Some x). cbv iota.
    destruct (isalpha x).
    + destruct r as [| c r']; autorewrite with subscripts; cbv iota;
        [discriminate |].
      destruct (isalpha c); [discriminate |]. intros _. cbn.
      intuition discriminate.
    + intros _. cbn. intuition discriminate.
  - (* two characters or more on the left *)
    clear IHl1. rewrite <- app_assoc in H, Hlen |- *.
    cbn [app] in H, Hlen |- *.
    split; [| split].
    + revert H. eval_rule. destruct (isalpha x).
      * destruct r as [| c r']; autorewrite with subscripts; cbv iota;
          [discriminate |].
        destruct (isalpha c); [discriminate |]. intros _. cbn. auto.
      * intros _. cbn. auto.
    + revert H. eval_rule.
      destruct r as [| c r']; autorewrite with subscripts; cbv iota.
      * destruct (isalpha x); [discriminate |]. intros _.
        destruct (isalpha y), (isspace x); cbn; intuition discriminate.
      * destruct (isalpha x), (isalpha c); try discriminate; intros _;
          destruct (isalpha y), (isspace x), (isspace c); cbn;
          intuition discriminate.
    + intros E. apply Hlen in E. now destruct l1.
Qed.

(** ** Periods left where an ellipsis belongs *)

Lemma startswith_spec s p :
  startswith s p = true <-> exists after, s = p ++ after.
Proof.
  revert s. induction p as [| a p IH]; intros s.
  - destruct s; cbn; split; eauto.
  - destruct s as [| b s]; cbn.
    + split; [discriminate | intros (x & E); discriminate].
    + rewrite andb_true_iff, Z.eqb_eq, IH. split.
      * intros (-> & after & ->). eauto.
      * intros (after & E). injection E as -> ->. eauto.
Qed.

Lemma contains_spec p s : contains p s = true <-> occurs_in p s.
Proof.
  unfold occurs_in. induction s as [| c s IH].
  - cbn [contains]. rewrite orb_false_r, startswith_spec. split.
    + intros (after & E). exists [], after. exact E.
    + intros (before & after & E). destruct before; [eauto | discriminate].
  - cbn [contains]. rewrite orb_true_iff, startswith_spec, IH. split.
    + intros [(after & E) | (before & after & E)].
      * exists [], after. exact E.
      * exists (c :: before), after. now rewrite E.
    + intros (before & after & E). destruct before as [| b before].
      * left. eauto.
      * right. injection E as -> ->. eauto.
Qed.

Lemma set_add_in x y s : In y (set_add x s) <-> y = x \/ In y s.
Proof.
  unfold set_add. destruct (char_in x s) eqn:E; cbn.
  - apply char_in_spec in E. split; [auto | intros [-> | H]; auto].
  - split; intros [H | H]; auto.
Qed.

Lemma set_add_nodup x s : NoDup s -> NoDup (set_add x s).
Proof.
  intros H. unfold set_add. destruct (char_in x s) eqn:E; [exact H |].
  constructor; [| exact H]. intros Hin. apply char_in_spec in Hin. congruence.
Qed.

Lemma insert_sorted_in x y l : In y (insert_sorted x l) <-> y = x \/ In y l.
Proof.
  forget_runtime.
  induction l as [| z l IH]; cbn.
  - intuition.
  - destruct (x <=? z); cbn; [intuition | rewrite IH; intuition].
Qed.

Lemma sorted_in y l : In y (sorted l) <-> In y l.
Proof.
  forget_runtime.
  induction l as [| x l IH]; cbn; [reflexivity |].
  rewrite insert_sorted_in, IH. intuition.
Qed.

Lemma insert_sorted_ascending x l :
  StronglySorted Z.lt l -> ~ In x l -> StronglySorted Z.lt (insert_sorted x l).
Proof.
  forget_runtime.
  induction l as [| y l IH]; intros Hs Hx; cbn.
  - repeat constructor.
  - apply StronglySorted_inv in Hs. destruct Hs as [Hs Hy].
    destruct (x <=? y) eqn:E.
    + apply Z.leb_le in E.
      assert (x < y) by (cbn in Hx; lia).
      constructor; [constructor; assumption |].
      constructor; [assumption |].
      rewrite Forall_forall in *. intros z Hz. specialize (Hy z Hz). lia.
    + apply Z.leb_gt in E. constructor.
      * apply IH; [assumption | cbn in Hx; tauto].
      * rewrite Forall_forall in *. intros z Hz.
        apply insert_sorted_in in Hz. destruct Hz as [-> | Hz]; auto.
Qed.

Lemma sorted_ascending l : NoDup l -> StronglySorted Z.lt (sorted l).
Proof.
  induction 1 as [| x l Hx Hl IH]; cbn; [constructor |].
  apply insert_sorted_ascending; [assumption |]. now rewrite sorted_in.
Qed.

Lemma found_from_in lines : forall i acc n,
  In n (fold_left flag_line (enumerate_from i lines) acc) <->
  In n acc \/
  exists k line, nth_error lines k = Some line /\
                 bad_periods line = true /\ n = i + Z.of_nat k + 1.
Proof.
  induction lines as [| line lines IH]; intros i acc n; cbn [enumerate_from fold_left].
  - split; [auto | intros [H | (k & l & H & _)]; [auto | now destruct k]].
  - rewrite IH. unfold flag_line. cbn [fst snd]. split.
    + intros [H | (k & l & Hk & Hb & ->)].
      * destruct (bad_periods line) eqn:E; [| auto].
        apply set_add_in in H. destruct H as [-> | H]; [| auto].
        right. exists 0%nat, line. repeat split; [assumption | lia].
      * right. exists (S k), l. repeat split; [assumption.. | lia].
    + intros [H | (k & l & Hk & Hb & ->)].
      * left. destruct (bad_periods line); [apply set_add_in |]; auto.
      * destruct k as [| k]; cbn in Hk.
        -- injection Hk as ->. left. rewrite Hb. apply set_add_in. left. lia.
        -- right. exists k, l. repeat split; [assumption.. | lia].
Qed.

Lemma found_from_nodup lines : forall i acc,
  NoDup acc -> NoDup (fold_left flag_line (enumerate_from i lines) acc).
Proof.
  induction lines as [| line lines IH]; intros i acc H; cbn; [exact H |].
  apply IH. unfold flag_line. destruct (bad_periods _); [| exact H].
  now apply set_add_nodup.
Qed.

(** C6: a line is flagged exactly when ".." , "..." or ". . ." occurs in it;
    the numbers printed are the 1-based numbers of the flagged lines, each
    once and in ascending order, joined into one summary line; the line
    "This is odd. . . really" is flagged. *)
Theorem literal_ellipsis_checker lines :
  (forall line,
     bad_periods line = true <->
     occurs_in (lit "..") line \/ occurs_in (lit "...") line \/
     occurs_in (lit ". . .") line) /\
  (forall n,
     In n (sorted (found_in_lines lines)) <->
     exists k line, nth_error lines k = Some line /\
                    bad_periods line = true /\ n = Z.of_nat k + 1) /\
  StronglySorted Z.lt (sorted (found_in_lines lines)) /\
  (found_in_lines lines <> [] ->
   check_periods lines =
   ([Stdout (lit "Checking for bad periods and unconverted ellipses:" ++ [10]);
     Stdout (lit "   Possible bad periods or unconverted ellipses found in lines:"
             ++ [10]);
     Stdout (lit "   ");
     Stdout (join (lit ", ") (map str_of_int (sorted (found_in_lines lines)))
             ++ [10]);
     Stdout (lit "Done with bad period and unconverted ellipsis check."
             ++ [10; 10])],
    Ok tt)) /\
  bad_periods odd_line = true /\
  sorted (found_in_lines [lit "fine"; odd_line]) = [2].
Proof.
  forget_runtime.
  split; [| split; [| split; [| split; [| split]]]].
  - intros line. unfold bad_periods.
    rewrite !orb_true_iff, !contains_spec. tauto.
  - intros n. rewrite sorted_in. unfold found_in_lines, enumerate.
    rewrite found_from_in. cbn [In]. split.
    + intros [[] | (k & l & H1 & H2 & H3)]. exists k, l. auto.
    + intros (k & l & H1 & H2 & H3). right. exists k, l. auto.
  - apply sorted_ascending. unfold found_in_lines, enumerate.
    apply (found_from_nodup lines 0 []). constructor.
  - intros H. unfold check_periods.
    destruct (found_in_lines lines) as [| n ns] eqn:E; [congruence |].
    replace (0 <? len (n :: ns)) with true
      by (symmetry; apply Z.ltb_lt; unfold len; simpl; lia).
    unfold bind, print, print_noend. cbn [fst snd app].
    now rewrite <- app_assoc.
  - reflexivity.
  - reflexivity.
Qed.

(** ** Blank space *)

Lemma groupby_head {A} (key : A -> Z) l k g gs :
  groupby key l = (k, g) :: gs ->
  exists x rest g', l = x :: rest /\ g = x :: g' /\ k = key x.
Proof.
  destruct l as [| x rest]; [discriminate |]. cbn [groupby].
  destruct (groupby key rest) as [| [k' g'] gs'].
  - intros E. injection E as <- <- <-. now exists x, rest, [].
  - destruct (key x =? k') eqn:Ek; intros E; injection E as <- <- <-.
    + apply Z.eqb_eq in Ek. now exists x, rest, g'.
    + now exists x, rest, [].
Qed.

(** The groups of [groupby] over the enumerated blank positions are the
    runs of blanks. *)
Lemma groups_are_runs s : forall k i,
  map summary
    (groupby (fun x => fst x - snd x)
       (enumerate_from k (findall_blank_from i s))) = runs_from i s.
Proof.
  induction s as [| c s IH]; intros k i; [reflexivity |].
  cbn [findall_blank_from runs_from]. destruct (isspace c); [| apply IH].
  cbn [enumerate_from groupby]. specialize (IH (k + 1) (i + 1)).
  destruct (groupby _ (enumerate_from (k + 1) _)) as [| [k' g] gs] eqn:E.
  - cbn in IH. rewrite <- IH. reflexivity.
  - destruct (groupby_head _ _ _ _ _ E) as ([k1 b1] & rest & g' & E1 & -> & ->).
    cbn [map] in IH. rewrite <- IH. unfold summary at 2.
    cbn [fst snd map hd].
    assert (Hk : k1 = k + 1).
    { destruct (findall_blank_from (i + 1) s); [discriminate |].
      cbn in E1. congruence. }
    subst k1.
    replace (k - i =? k + 1 - b1) with (b1 =? i + 1).
    2:{ destruct (b1 =? i + 1) eqn:E2; symmetry;
          [apply Z.eqb_eq in E2; apply Z.eqb_eq |
           apply Z.eqb_neq in E2; apply Z.eqb_neq]; lia. }
    destruct (b1 =? i + 1); cbn [map]; unfold summary; cbn [fst snd map hd];
      [| reflexivity].
    f_equal. f_equal. unfold len. cbn [List.length]. lia.
Qed.

Lemma filter_map_swap {A B} (f : A -> B) (p : B -> bool) l :
  filter p (map f l) = map f (filter (fun x => p (f x)) l).
Proof.
  induction l as [| x l IH]; [reflexivity |]. cbn.
  destruct (p (f x)); cbn; now rewrite IH.
Qed.

Lemma reported_runs_eq line :
  reported_runs line = filter (fun run => 1 <? snd run) (runs_from 0 line).
Proof.
  unfold reported_runs, blank_sequences, findall_blank, enumerate.
  rewrite <- (groups_are_runs line 0 0).
  rewrite !filter_map_swap, map_map. reflexivity.
Qed.

Lemma blank_from_nil i j : ~ blank_from i [] j.
Proof. intros (_ & c & H & _). now destruct (Z.to_nat (j - i)). Qed.

Lemma blank_from_cons i c s j :
  blank_from i (c :: s) j <->
  (j = i /\ isspace c = true) \/ blank_from (i + 1) s j.
Proof.
  unfold blank_from. split.
  - intros (Hij & x & Hn & Hx).
    destruct (Z.to_nat (j - i)) as [| m] eqn:E.
    + left. cbn in Hn. injection Hn as ->. split; [lia | assumption].
    + right. split; [lia |]. exists x. split; [| assumption].
      replace (Z.to_nat (j - (i + 1))) with m by lia. exact Hn.
  - intros [(-> & Hc) | (Hij & x & Hn & Hx)].
    + split; [lia |]. exists c. rewrite Z.sub_diag. auto.
    + split; [lia |]. exists x. split; [| assumption].
      replace (Z.to_nat (j - i)) with (S (Z.to_nat (j - (i + 1)))) by lia.
      exact Hn.
Qed.

Lemma blank_from_ge i s j : blank_from i s j -> i <= j.
Proof. now intros (H & _). Qed.

Lemma keep_run i c s p n :
  maximal_run_from (i + 1) s p n ->
  i + 1 < p \/ isspace c = false ->
  maximal_run_from i (c :: s) p n.
Proof.
  intros (H1 & H2 & H3 & H4 & H5) Hp.
  split; [lia | split; [lia | split; [| split]]].
  - intros j Hj. apply blank_from_cons. right. now apply H3.
  - rewrite blank_from_cons. intros [(E & Hc) | H]; [| auto].
    destruct Hp; [lia | congruence].
  - rewrite blank_from_cons. intros [(E & Hc) | H]; [lia | auto].
Qed.

Lemma extend_run i c s n :
  isspace c = true ->
  maximal_run_from (i + 1) s (i + 1) n ->
  maximal_run_from i (c :: s) i (n + 1).
Proof.
  intros Hc (H1 & H2 & H3 & H4 & H5).
  split; [lia | split; [lia | split; [| split]]].
  - intros j Hj. apply blank_from_cons.
    destruct (Z.eq_dec j i) as [-> | Hne]; [now left | right].
    apply H3. lia.
  - intros H. apply blank_from_ge in H. lia.
  - rewrite blank_from_cons. intros [(E & _) | H]; [lia |].
    apply H5. now replace (i + 1 + n) with (i + (n + 1)) by lia.
Qed.

Lemma single_run i c s :
  isspace c = true ->
  ~ blank_from (i + 1) s (i + 1) ->
  maximal_run_from i (c :: s) i 1.
Proof.
  intros Hc Hn.
  split; [lia | split; [lia | split; [| split]]].
  - intros j Hj. apply blank_from_cons. left. split; [lia | assumption].
  - intros H. apply blank_from_ge in H. lia.
  - rewrite blank_from_cons. intros [(E & _) | H]; [lia | auto].
Qed.

(** [runs_from] lists maximal runs only, misses no blank, and lists the
    runs from left to right. *)
Lemma runs_from_invariant s : forall i,
  (forall p n, In (p, n) (runs_from i s) -> maximal_run_from i s p n) /\
  (forall j, blank_from i s j ->
             exists p n, In (p, n) (runs_from i s) /\ p <= j < p + n) /\
  StronglySorted starts_before (runs_from i s).
Proof.
  forget_runtime.
  induction s as [| c s IH]; intros i.
  - cbn. split; [tauto |]. split; [| constructor].
    intros j H. now apply blank_from_nil in H.
  - destruct (IH (i + 1)) as (Hs & Hc & Ho). clear IH.
    cbn [runs_from]. destruct (isspace c) eqn:Ec.
    + destruct (runs_from (i + 1) s) as [| [p1 n1] rs] eqn:Er.
      * (* no blank after [c] *)
        assert (Hnone : forall j, ~ blank_from (i + 1) s j).
        { intros j H. destruct (Hc j H) as (p & n & [] & _). }
        split; [| split].
        -- intros p n [E | []]. injection E as <- <-.
           apply single_run; auto.
        -- intros j H. apply blank_from_cons in H.
           destruct H as [(-> & _) | H]; [| now apply Hnone in H].
           exists i, 1. split; [now left | lia].
        -- repeat constructor.
      * assert (H1 : maximal_run_from (i + 1) s p1 n1) by (apply Hs; now left).
        apply StronglySorted_inv in Ho. destruct Ho as [Ho Hall].
        rewrite Forall_forall in Hall. unfold starts_before in Hall.
        cbn [fst] in Hall.
        destruct (p1 =? i + 1) eqn:E1;
          [apply Z.eqb_eq in E1 | apply Z.eqb_neq in E1].
        -- (* [c] extends the first run *)
           subst p1. split; [| split].
           ++ intros p n [E | H].
              ** injection E as <- <-. now apply extend_run.
              ** apply keep_run; [apply Hs; now right |].
                 left. apply (Hall (p, n) H).
           ++ intros j H. apply blank_from_cons in H.
              destruct H as [(-> & _) | H].
              ** exists i, (n1 + 1). split; [now left |].
                 destruct H1 as (? & _). lia.
              ** destruct (Hc j H) as (p & n & [E | Hin] & Hj).
                 --- injection E as <- <-. exists i, (n1 + 1).
                     split; [now left | lia].
                 --- exists p, n. split; [now right | assumption].
           ++ constructor; [assumption |]. apply Forall_forall.
              intros [p n] H. unfold starts_before. cbn [fst].
              specialize (Hall (p, n) H). cbn [fst] in Hall. lia.
        -- (* [c] is a run of its own *)
           assert (Hp1 : i + 1 < p1) by (destruct H1 as (_ & ? & _); lia).
           assert (Hlow : forall p n, In (p, n) ((p1, n1) :: rs) -> i + 1 < p).
           { intros p n [E | H]; [injection E as <- <-; assumption |].
             specialize (Hall (p, n) H). cbn [fst] in Hall. lia. }
           split; [| split].
           ++ intros p n [E | H].
              ** injection E as <- <-. apply single_run; [assumption |].
                 intros Hb. destruct (Hc _ Hb) as (p & n & Hin & Hj).
                 specialize (Hlow p n Hin). lia.
              ** apply keep_run; [now apply Hs | left; now apply (Hlow p n)].
           ++ intros j H. apply blank_from_cons in H.
              destruct H as [(-> & _) | H].
              ** exists i, 1. split; [now left | lia].
              ** destruct (Hc j H) as (p & n & Hin & Hj).
                 exists p, n. split; [now right | assumption].
           ++ constructor; [constructor; [assumption | now apply Forall_forall] |].
              apply Forall_forall. intros [p n] H. unfold starts_before.
              cbn [fst]. specialize (Hlow p n H). lia.
    + (* [c] is no blank *)
      split; [| split; [| assumption]].
      * intros p n H. apply keep_run; [now apply Hs | now right].
      * intros j H. apply blank_from_cons in H.
        destruct H as [(_ & E) | H]; [congruence | now apply Hc].
Qed.

(** Two maximal runs that share a position are the same run. *)
Lemma maximal_run_unique i s p n p' n' :
  maximal_run_from i s p n -> maximal_run_from i s p' n' ->
  p' <= p < p' + n' -> p = p' /\ n = n'.
Proof.
  intros (H1 & H2 & H3 & H4 & H5) (H1' & H2' & H3' & H4' & H5') Hov.
  assert (p = p').
  { destruct (Z.eq_dec p p') as [E | E]; [assumption |].
    exfalso. apply H4. apply H3'. lia. }
  subst p'. split; [reflexivity |].
  destruct (Z_lt_le_dec n n') as [Hlt | Hle].
  - exfalso. apply H5. apply H3'. lia.
  - destruct (Z.eq_dec n n') as [E | E]; [assumption |].
    exfalso. apply H5'. apply H3. lia.
Qed.

Lemma runs_from_spec i s p n :
  In (p, n) (runs_from i s) <-> maximal_run_from i s p n.
Proof.
  destruct (runs_from_invariant s i) as (Hs & Hc & _). split; [apply Hs |].
  intros H. pose proof H as (Hn & _ & Hb & _).
  destruct (Hc p (Hb p ltac:(lia))) as (p' & n' & Hin & Hov).
  destruct (maximal_run_unique _ _ _ _ _ _ H (Hs _ _ Hin) Hov) as (-> & ->).
  exact Hin.
Qed.

Lemma findall_blank_from_app i s c :
  findall_blank_from i (s ++ [c]) =
  findall_blank_from i s ++ (if isspace c then [i + len s] else []).
Proof.
  revert i. induction s as [| x s IH]; intros i.
  - cbn [app findall_blank_from]. change (len (@nil char)) with 0.
    rewrite Z.add_0_r. now destruct (isspace c).
  - cbn [app findall_blank_from]. rewrite IH.
    replace (i + 1 + len s) with (i + len (x :: s))
      by (unfold len; cbn [List.length]; lia).
    now destruct (isspace x).
Qed.

Lemma findall_blank_from_bound i s j :
  In j (findall_blank_from i s) -> i <= j < i + len s.
Proof.
  revert i. induction s as [| x s IH]; intros i; [intros [] |].
  cbn [findall_blank_from].
  assert (Hl : len (x :: s) = len s + 1) by (unfold len; cbn [List.length]; lia).
  destruct (isspace x).
  - intros [<- | H]; [pose proof (len_nonneg s); lia |].
    apply IH in H. lia.
  - intros H. apply IH in H. lia.
Qed.

Lemma findall_blank_from_none i s :
  findall_blank_from i s = [] <-> (forall c, In c s -> isspace c = false).
Proof.
  revert i. induction s as [| x s IH]; intros i; cbn [findall_blank_from].
  - split; [intros _ c [] | reflexivity].
  - destruct (isspace x) eqn:E.
    + split; [discriminate |]. intros H.
      specialize (H x (or_introl eq_refl)). congruence.
    + rewrite IH. split.
      * intros H c [<- | Hc]; auto.
      * intros H c Hc. apply H. now right.
Qed.

Lemma trailing_blank_test line :
  findall_blank line <> [] ->
  (last (findall_blank line) 0 =? len line - 1) = true <-> ends_with_blank line.
Proof.
  unfold findall_blank, ends_with_blank. rewrite Z.eqb_eq.
  destruct line as [| x line0] using rev_ind; [now intros [] |]. clear IHline0.
  rewrite findall_blank_from_app, len_app. change (len [x]) with 1.
  cbn [Z.add]. intros Hne. destruct (isspace x) eqn:E.
  - rewrite last_snoc. split; [| lia]. intros _. now exists line0, x.
  - rewrite app_nil_r in *. split.
    + intros H.
      destruct (nonempty_last _ Hne) as (bs & b & Eb). rewrite Eb in H.
      rewrite last_snoc in H.
      assert (Hin : In b (findall_blank_from 0 line0))
        by (rewrite Eb; apply in_or_app; right; now left).
      apply findall_blank_from_bound in Hin. lia.
    + intros (s & c & Es & Hc). apply app_inj_tail in Es.
      destruct Es as (_ & <-). congruence.
Qed.

Lemma for_each_print {A} (f : A -> pystr) l :
  for_each l (fun x => print (f x)) =
  (map (fun x => Stdout (f x ++ [10])) l, Ok tt).
Proof.
  induction l as [| x l IH]; [reflexivity |].
  cbn [for_each map]. rewrite IH. reflexivity.
Qed.

(** The body of the loop, on one line: what it reports and what it writes. *)
Lemma check_blanks_line_findings index line :
  ((forall c, In c (rstrip_nl line) -> isspace c = false) ->
   check_blanks_line index line = ([], Ok tt)) /\
  (forall start n,
     In (start, n) (reported_runs (rstrip_nl line)) <->
     maximal_blank_run (rstrip_nl line) start n /\ 2 <= n) /\
  StronglySorted starts_before (reported_runs (rstrip_nl line)) /\
  (exists trailing : bool,
     (trailing = true <-> ends_with_blank (rstrip_nl line)) /\
     check_blanks_line index line =
     (blank_findings index (reported_runs (rstrip_nl line)) trailing, Ok tt)) /\
  reported_runs twice_spaced = [(0, 2); (7, 2)] /\
  check_blanks_line 0 twice_spaced =
  ([Stdout (lit "Line 1:" ++ [10]);
    Stdout (lit "   Position 0, blank sequence of length 2" ++ [10]);
    Stdout (lit "   Position 7, blank sequence of length 2" ++ [10]);
    Stdout [10]], Ok tt).
Proof.
  split; [| split; [| split; [| split; [| split]]]].
  - intros H. unfold check_blanks_line. cbv zeta.
    apply (findall_blank_from_none 0) in H. unfold findall_blank.
    now rewrite H.
  - intros start n. rewrite reported_runs_eq, filter_In. cbn [snd].
    rewrite runs_from_spec, Z.ltb_lt. unfold maximal_blank_run.
    split; intros (H1 & H2); (split; [assumption | lia]).
  - rewrite reported_runs_eq.
    destruct (runs_from_invariant (rstrip_nl line) 0) as (_ & _ & Ho).
    induction Ho as [| a l Hl IH Ha]; cbn [filter]; [constructor |].
    destruct (1 <? snd a); [| exact IH].
    constructor; [exact IH |]. rewrite Forall_forall in *.
    intros b Hb. apply filter_In in Hb. now apply Ha.
  - unfold check_blanks_line, reported_runs. cbv zeta.
    set (stripped := rstrip_nl line).
    destruct (findall_blank stripped) as [| b bs] eqn:Eb.
    + exists false. split; [| reflexivity]. split; [discriminate |].
      intros (s & c & Es & Hc). exfalso.
      apply (findall_blank_from_none 0) with (c := c) in Eb; [congruence |].
      rewrite Es. apply in_or_app. right. now left.
    + replace (len (b :: bs) =? 0) with false
        by (symmetry; apply Z.eqb_neq; unfold len; cbn [List.length]; lia).
      exists (last (b :: bs) 0 =? len stripped - 1). split.
      * rewrite <- Eb. apply trailing_blank_test. rewrite Eb. discriminate.
      * rewrite for_each_print.
        destruct (blank_sequences (b :: bs)) as [| sq sqs].
        -- cbn [len List.length Z.of_nat Z.ltb Z.compare map].
           unfold bind, ret, print, blank_findings. cbn [fst snd app].
           now destruct (last (b :: bs) 0 =? len stripped - 1).
        -- replace (0 <? len (sq :: sqs)) with true
             by (symmetry; apply Z.ltb_lt; unfold len; cbn [List.length]; lia).
           unfold bind, ret, print, blank_findings. cbn [fst snd app map].
           rewrite map_map.
           destruct (last (b :: bs) 0 =? len stripped - 1); cbn [fst snd app];
             rewrite ?app_nil_r; reflexivity.
  - reflexivity.
  - reflexivity.
Qed.

Lemma blank_at_end_spec line : blank_at_end line = true <-> ends_with_blank line.
Proof.
  unfold blank_at_end, ends_with_blank.
  destruct line as [| c s] using rev_ind.
  - cbn. split; [discriminate |]. intros (s & c & E & _).
    now destruct s.
  - rewrite rev_app_distr. cbn [rev app]. split.
    + intros H. now exists s, c.
    + intros (s' & c' & E & H). apply app_inj_tail in E.
      destruct E as (_ & ->). exact H.
Qed.

Lemma long_runs_spec line start n :
  In (start, n) (long_runs line) <-> maximal_blank_run line start n /\ 2 <= n.
Proof.
  unfold long_runs, maximal_blank_run.
  rewrite filter_In, runs_from_spec, Z.ltb_lt. cbn [snd].
  split; intros (H1 & H2); (split; [assumption | lia]).
Qed.

Lemma long_runs_none line :
  (forall c, In c line -> isspace c = false) -> long_runs line = [].
Proof.
  intros H. destruct (long_runs line) as [| [start n] runs] eqn:E;
    [reflexivity |].
  assert (Hin : In (start, n) (long_runs line)) by (rewrite E; now left).
  apply long_runs_spec in Hin. destruct Hin as ((Hn & _ & Hb & _) & _).
  destruct (Hb start ltac:(lia)) as (_ & c & Hc & Hs).
  apply nth_error_In in Hc. rewrite (H c Hc) in Hs. discriminate.
Qed.

Lemma blank_at_end_none line :
  (forall c, In c line -> isspace c = false) -> blank_at_end line = false.
Proof.
  intros H. destruct (blank_at_end line) eqn:E; [| reflexivity].
  apply blank_at_end_spec in E. destruct E as (s & c & -> & Hc).
  rewrite H in Hc; [discriminate |]. apply in_or_app. right. now left.
Qed.

Lemma check_blanks_line_report index line :
  check_blanks_line index line =
  (blank_report (index + 1) (rstrip_nl line), Ok tt).
Proof.
  destruct (check_blanks_line_findings index line)
    as (_ & _ & _ & (trailing & Ht & ->) & _).
  f_equal. unfold blank_findings, blank_report.
  rewrite reported_runs_eq. fold (long_runs (rstrip_nl line)).
  assert (E : trailing = blank_at_end (rstrip_nl line)).
  { pose proof (blank_at_end_spec (rstrip_nl line)) as Hb.
    destruct trailing, (blank_at_end (rstrip_nl line)); try reflexivity.
    - symmetry. apply Hb, Ht. reflexivity.
    - apply Ht, Hb. reflexivity. }
  rewrite E.
  assert (Hhead : line_header index ++ [10] =
                  lit "Line " ++ str_of_int (index + 1) ++ lit ":" ++ [10])
    by (unfold line_header; now rewrite <- !app_assoc).
  assert (Htail : trailing_report index ++ [10] =
                  lit "NB: blank at end of line " ++ str_of_int (index + 1) ++
                  [10])
    by (unfold trailing_report; now rewrite <- !app_assoc).
  assert (Hrun : forall runs,
             map (fun run => Stdout (run_report run ++ [10])) runs =
             map (fun run =>
                    Stdout (lit "   Position " ++ str_of_int (fst run) ++
                            lit ", blank sequence of length " ++
                            str_of_int (snd run) ++ [10])) runs).
  { intros runs. apply map_ext. intros run. unfold run_report.
    now rewrite <- !app_assoc. }
  rewrite Hhead, Htail.
  destruct (long_runs (rstrip_nl line)) as [| run runs];
    [reflexivity | now rewrite Hrun].
Qed.

Lemma check_blanks_lines_report lines : forall k,
  for_each (enumerate_from (Z.of_nat k) lines)
    (fun il => check_blanks_line (fst il) (snd il)) =
  (flat_map (fun nl => blank_report (fst nl) (rstrip_nl (snd nl)))
     (combine (map Z.of_nat (seq (S k) (List.length lines))) lines),
   Ok tt).
Proof.
  induction lines as [| line lines IH]; intros k; [reflexivity |].
  cbn [enumerate_from for_each List.length seq map combine flat_map fst snd].
  rewrite check_blanks_line_report.
  replace (Z.of_nat k + 1) with (Z.of_nat (S k)) by lia.
  rewrite (IH (S k)). unfold bind. reflexivity.
Qed.

(** C7: the check for blank space over a document.  Between its opening and
    its closing line it writes, for each line in turn and with the number of
    the line counted from 1, what [blank_report] says of the line without
    its trailing newline: nothing when no character of it is a blank;
    otherwise "Line n:" and one entry, with start position counted from 0
    and with length, for each maximal run of two blanks or more, from left
    to right, and "NB: blank at end of line n" exactly when the last
    character is a blank.  In "  twice  spaced" the runs are (0, 2) and
    (7, 2). *)
Theorem blank_space_checker lines :
  check_blanks lines =
  (Stdout (lit "Checking for blank space problems:" ++ [10]) ::
   flat_map (fun nl => blank_report (fst nl) (rstrip_nl (snd nl)))
     (numbered lines) ++
   [Stdout (lit "Done with blanks check." ++ [10; 10])],
   Ok tt) /\
  (forall number line,
     (forall c, In c line -> isspace c = false) ->
     blank_report number line = []) /\
  (forall line start n,
     In (start, n) (long_runs line) <->
     maximal_blank_run line start n /\ 2 <= n) /\
  (forall line, StronglySorted starts_before (long_runs line)) /\
  (forall line, blank_at_end line = true <-> ends_with_blank line) /\
  long_runs twice_spaced = [(0, 2); (7, 2)] /\
  check_blanks blank_samples =
  ([Stdout (lit "Checking for blank space problems:" ++ [10]);
    Stdout (lit "Line 2:" ++ [10]);
    Stdout (lit "   Position 0, blank sequence of length 2" ++ [10]);
    Stdout (lit "   Position 7, blank sequence of length 2" ++ [10]);
    Stdout [10];
    Stdout (lit "NB: blank at end of line 3" ++ [10]);
    Stdout [10];
    Stdout (lit "Done with blanks check." ++ [10; 10])],
   Ok tt).
Proof.
  split; [| split; [| split; [| split; [| split; [| split]]]]].
  - unfold check_blanks, enumerate, numbered.
    change (enumerate_from 0 lines) with (enumerate_from (Z.of_nat 0) lines).
    rewrite (check_blanks_lines_report lines 0).
    unfold bind, print. cbn [fst snd app]. now rewrite <- app_assoc.
  - intros number line H. unfold blank_report.
    now rewrite (long_runs_none line H), (blank_at_end_none line H).
  - apply long_runs_spec.
  - intros line. unfold long_runs.
    destruct (runs_from_invariant line 0) as (_ & _ & Ho).
    induction Ho as [| a l Hl IH Ha]; cbn [filter]; [constructor |].
    destruct (1 <? snd a); [| exact IH].
    constructor; [exact IH |]. rewrite Forall_forall in *.
    intros b Hb. apply filter_In in Hb. now apply Ha.
  - apply blank_at_end_spec.
  - reflexivity.
  - reflexivity.
Qed.

(** ** The process *)

Lemma runchecks_returns_zero lines charlist code :
  outcome (runchecks lines charlist) = Ok code -> code = 0.
Proof.
  unfold runchecks. rewrite !outcome_bind.
  destruct (outcome (check_blanks lines)); [| discriminate].
  destruct (outcome (check_periods lines)); [| discriminate].
  destruct (outcome (for_each charlist (check_item lines))); [| discriminate].
  cbn. congruence.
Qed.

(** C8: the exit status is 1 when the number of arguments is not one, when
    the path is not a regular file and when the file cannot be read, be it
    that reading fails or that its bytes do not decode; it is 0 when
    [runchecks] returns. *)
Theorem exit_codes w :
  (len (argv w) <> 2 -> snd (main w) = Exit 1) /\
  (len (argv w) = 2 -> isfile w (nth 1 (argv w) []) = false ->
   snd (main w) = Exit 1) /\
  (len (argv w) = 2 -> isfile w (nth 1 (argv w) []) = true ->
   readlines w (nth 1 (argv w) []) = IOError ->
   snd (main w) = Exit 1) /\
  (len (argv w) = 2 -> isfile w (nth 1 (argv w) []) = true ->
   readlines w (nth 1 (argv w) []) = DecodeError ->
   exit_status (snd (main w)) = 1) /\
  (forall lines code,
     len (argv w) = 2 -> isfile w (nth 1 (argv w) []) = true ->
     readlines w (nth 1 (argv w) []) = Lines lines ->
     outcome (runchecks lines (chars_to_check (getinventory lines))) = Ok code ->
     snd (main w) = Exit 0).
Proof.
  unfold main. repeat split.
  - intros H. apply Z.eqb_neq in H. now rewrite H.
  - intros H1 H2. apply Z.eqb_eq in H1. now rewrite H1, H2.
  - intros H1 H2 H3. apply Z.eqb_eq in H1. now rewrite H1, H2, H3.
  - intros H1 H2 H3. apply Z.eqb_eq in H1. now rewrite H1, H2, H3.
  - intros lines code H1 H2 H3 H4. apply Z.eqb_eq in H1.
    rewrite H1, H2, H3. cbn [negb].
    pose proof (runchecks_returns_zero _ _ _ H4) as ->.
    destruct (runchecks lines _) as [t r]. unfold outcome in H4.
    cbn [snd] in H4. now rewrite H4.
Qed.

(** C9, as the code has it: two runs on the same arguments and the same file
    end alike and write the same, but for the line "Started at ..." that
    opens the report and carries the time of the run. *)
Theorem same_report_but_for_the_time w1 w2 :
  same_input w1 w2 ->
  snd (main w1) = snd (main w2) /\
  (fst (main w1) = fst (main w2) \/
   exists rest,
     fst (main w1) = Stdout (started w1 (nth 1 (argv w1) []) ++ [10]) :: rest /\
     fst (main w2) = Stdout (started w2 (nth 1 (argv w2) []) ++ [10]) :: rest).
Proof.
  intros (Ha & Hf & Hr). unfold main. rewrite <- Ha in *. rewrite <- Hf, <- Hr.
  destruct (negb (len (argv w1) =? 2)); [auto |].
  destruct (negb (isfile w1 (nth 1 (argv w1) []))); [auto |].
  destruct (readlines w1 (nth 1 (argv w1) [])) as [lines | |].
  - destruct (runchecks lines _) as [t [code | e]].
    + destruct (code =? 0); (split; [reflexivity |]); right;
        eexists; split; reflexivity.
    + split; [reflexivity |]. right. eexists; split; reflexivity.
  - split; [reflexivity |]. right. eexists; split; reflexivity.
  - split; [reflexivity |]. right. eexists; split; reflexivity.
Qed.

(** ** More on the helpers and on the snippets *)

Lemma findall_from_in s c : forall i j,
  In j (findall_from i s c) <->
  i <= j /\ nth_error s (Z.to_nat (j - i)) = Some c.
Proof.
  forget_runtime.
  induction s as [| x s IH]; intros i j; cbn [findall_from].
  - split; [intros [] | intros (_ & H)]. now destruct (Z.to_nat (j - i)).
  - assert (Hstep : In j (findall_from (i + 1) s c) <->
                     i < j /\ nth_error (x :: s) (Z.to_nat (j - i)) = Some c).
    { rewrite IH. split; intros (H1 & H2); (split; [lia |]).
      - replace (Z.to_nat (j - i)) with (S (Z.to_nat (j - (i + 1)))) by lia.
        exact H2.
      - replace (Z.to_nat (j - i)) with (S (Z.to_nat (j - (i + 1)))) in H2 by lia.
        exact H2. }
    destruct (x =? c) eqn:E; [apply Z.eqb_eq in E | apply Z.eqb_neq in E].
    + cbn [In]. rewrite Hstep. split.
      * intros [<- | (H1 & H2)]; [| split; [lia | exact H2]].
        split; [lia |]. rewrite Z.sub_diag. cbn. now subst.
      * intros (H1 & H2). destruct (Z.eq_dec i j) as [-> | Hne]; [now left |].
        right. split; [lia | exact H2].
    + rewrite Hstep. split.
      * intros (H1 & H2). split; [lia | exact H2].
      * intros (H1 & H2). split; [| exact H2].
        destruct (Z.eq_dec i j) as [-> | Hne]; [| lia].
        rewrite Z.sub_diag in H2. cbn in H2. congruence.
Qed.

Lemma findall_from_ascending s c : forall i,
  StronglySorted Z.lt (findall_from i s c).
Proof.
  forget_runtime.
  induction s as [| x s IH]; intros i; cbn [findall_from]; [constructor |].
  destruct (x =? c); [| apply IH].
  constructor; [apply IH |]. apply Forall_forall. intros j Hj.
  apply findall_from_in in Hj. lia.
Qed.

(** X1: [findall] returns the positions, counted from 0, at which the
    character stands in the string: all of them, nothing else, each once and
    from left to right. *)
Theorem findall_positions s c :
  (forall j, In j (findall s c) <->
             0 <= j /\ nth_error s (Z.to_nat j) = Some c) /\
  StronglySorted Z.lt (findall s c).
Proof.
  split; [| apply findall_from_ascending].
  intros j. unfold findall. rewrite findall_from_in. now rewrite Z.sub_0_r.
Qed.

Lemma findall_blank_from_in s : forall i j,
  In j (findall_blank_from i s) <-> blank_from i s j.
Proof.
  induction s as [| x s IH]; intros i j; cbn [findall_blank_from].
  - split; [intros [] | intros H; now apply blank_from_nil in H].
  - rewrite blank_from_cons. destruct (isspace x) eqn:E.
    + cbn [In]. rewrite IH. split.
      * intros [<- | H]; [left; now split | now right].
      * intros [(-> & _) | H]; [now left | now right].
    + rewrite IH. split; [auto | intros [(_ & H) | H]; [congruence | exact H]].
Qed.

Lemma findall_blank_from_ascending s : forall i,
  StronglySorted Z.lt (findall_blank_from i s).
Proof.
  induction s as [| x s IH]; intros i; cbn [findall_blank_from]; [constructor |].
  destruct (isspace x); [| apply IH].
  constructor; [apply IH |]. apply Forall_forall. intros j Hj.
  apply findall_blank_from_bound in Hj. lia.
Qed.

(** X2: [findall_blank] returns the positions, counted from 0, of the
    characters of the string that are whitespace: all of them, nothing else,
    each once and from left to right. *)
Theorem findall_blank_positions s :
  (forall j, In j (findall_blank s) <->
             0 <= j /\ exists c, nth_error s (Z.to_nat j) = Some c /\
                                 isspace c = true) /\
  StronglySorted Z.lt (findall_blank s).
Proof.
  split; [| apply findall_blank_from_ascending].
  intros j. unfold findall_blank. rewrite findall_blank_from_in.
  unfold blank_from. now rewrite Z.sub_0_r.
Qed.

Lemma skipn_at {A} (l : list A) n x :
  nth_error l n = Some x -> skipn n l = x :: skipn (S n) l.
Proof.
  revert l. induction n as [| n IH]; intros [| y l] H; try discriminate.
  - cbn in H. injection H as ->. reflexivity.
  - cbn in H. cbn [skipn]. now apply IH.
Qed.

(** X3: around an occurrence at [position] the line splits into what lies
    beyond the left snippet, the left snippet, the character, the right
    snippet and what lies beyond it; either snippet has ten characters, or
    fewer when the line has fewer on that side. *)
Theorem snippets_around line position c :
  0 <= position ->
  nth_error line (Z.to_nat position) = Some c ->
  line = slice line 0 (left_extent position) ++ left_of line position ++ [c] ++
         right_of line position ++
         skipn (Z.to_nat (position + 1 + SNIPPET_RADIUS)) line /\
  len (left_of line position) = Z.min position SNIPPET_RADIUS /\
  len (right_of line position) =
  Z.min (len line - position - 1) SNIPPET_RADIUS.
Proof.
  intros Hp Hc.
  assert (Hlt : (Z.to_nat position < List.length line)%nat)
    by (apply nth_error_Some; congruence).
  unfold left_of, right_of, slice, left_extent, SNIPPET_RADIUS.
  set (e := if position <? 10 then 0 else position - 10).
  assert (He : 0 <= e <= position /\ position - e = Z.min position 10).
  { unfold e. destruct (position <? 10) eqn:E;
      [apply Z.ltb_lt in E | apply Z.ltb_ge in E]; lia. }
  split; [| split].
  - rewrite Z.sub_0_r. cbn [skipn Z.to_nat].
    rewrite <- (firstn_skipn (Z.to_nat e) line) at 1. f_equal.
    rewrite <- (firstn_skipn (Z.to_nat (position - e)) (skipn (Z.to_nat e) line)) at 1.
    f_equal. rewrite skipn_skipn.
    replace (Z.to_nat (position - e) + Z.to_nat e)%nat with (Z.to_nat position)
      by lia.
    rewrite (skipn_at _ _ _ Hc). cbn [app]. f_equal.
    replace (Z.to_nat (position + 1)) with (S (Z.to_nat position)) by lia.
    rewrite <- (firstn_skipn (Z.to_nat (position + 1 + 10 - (position + 1)))
                  (skipn (S (Z.to_nat position)) line)) at 1.
    f_equal. rewrite skipn_skipn. f_equal. lia.
  - unfold len. rewrite length_firstn, length_skipn. lia.
  - unfold len. rewrite length_firstn, length_skipn. lia.
Qed.

(** ** The remaining rules of the verifier *)

Lemma verify_rsquo l r :
  verify rsquo l r =
  if (0 <? len l) && (0 <? len r) then
    (alpha_or_punct Left_context l (-1) &&& space (at_ Right_context r 0)) |||
    (alpha (at_ Left_context l (-1)) &&& alpha (at_ Right_context r 0))
  else if len r =? 0 then alpha_or_punct Left_context l (-1)
  else ret false.
Proof. reflexivity. Qed.

Lemma verify_rdquo l r :
  verify rdquo l r =
  if (0 <? len l) && (0 <? len r) then
    alpha_or_punct Left_context l (-1) &&& space (at_ Right_context r 0)
  else if len r =? 0 then alpha_or_punct Left_context l (-1)
  else ret false.
Proof. reflexivity. Qed.

Lemma len_snoc_pos {A} (s : list A) a : (0 <? len (s ++ [a])) = true.
Proof.
  apply Z.ltb_lt. rewrite len_app. pose proof (len_nonneg s).
  change (len [a]) with 1. lia.
Qed.

Lemma len_cons_pos {A} (a : A) s : (0 <? len (a :: s)) = true.
Proof. apply Z.ltb_lt. unfold len. cbn [List.length]. lia. Qed.

Lemma len_cons_nonzero {A} (a : A) s : (len (a :: s) =? 0) = false.
Proof. apply Z.eqb_neq. unfold len. cbn [List.length]. lia. Qed.

(** X4: the rule of the right single quote.  Between two contexts that are
    not empty it is verified when a letter or a punctuation mark stands
    before it and whitespace after it, or when it stands between two
    letters; at the end of a line, when a letter or a punctuation mark
    stands before it; at the start of a line it is not verified. *)
Theorem right_single_quote_rule l r :
  (l <> [] -> r <> [] ->
   outcome (verify rsquo l r) =
   Ok ((closes_word (last l 0) && isspace (hd 0 r)) ||
       (isalpha (last l 0) && isalpha (hd 0 r)))) /\
  (l <> [] -> r = [] ->
   outcome (verify rsquo l r) = Ok (closes_word (last l 0))) /\
  (l = [] -> r <> [] -> outcome (verify rsquo l r) = Ok false).
Proof.
  rewrite verify_rsquo. unfold closes_word. repeat split.
  - intros Hl Hr. destruct (nonempty_last l Hl) as (s & a & ->).
    destruct r as [| b r']; [congruence |].
    rewrite len_snoc_pos, len_cons_pos, last_snoc. cbn [andb hd].
    eval_rule.
    destruct (isalpha a), (char_in a PUNCTUATION), (isspace b); reflexivity.
  - intros Hl ->. destruct (nonempty_last l Hl) as (s & a & ->).
    rewrite andb_false_r, last_snoc. change (len (@nil char) =? 0) with true.
    cbv iota. eval_rule. now destruct (isalpha a).
  - intros -> Hr. destruct r as [| b r']; [congruence |].
    change (len (@nil char)) with 0. change (0 <? 0) with false.
    cbn [andb]. now rewrite len_cons_nonzero.
Qed.

(** X5: the rule of the right double quote.  Between two contexts that are
    not empty it is verified when a letter or a punctuation mark stands
    before it and whitespace after it; at the end of a line, when a letter
    or a punctuation mark stands before it; at the start of a line it is
    not verified. *)
Theorem right_double_quote_rule l r :
  (l <> [] -> r <> [] ->
   outcome (verify rdquo l r) =
   Ok (closes_word (last l 0) && isspace (hd 0 r))) /\
  (l <> [] -> r = [] ->
   outcome (verify rdquo l r) = Ok (closes_word (last l 0))) /\
  (l = [] -> r <> [] -> outcome (verify rdquo l r) = Ok false).
Proof.
  rewrite verify_rdquo. unfold closes_word. repeat split.
  - intros Hl Hr. destruct (nonempty_last l Hl) as (s & a & ->).
    destruct r as [| b r']; [congruence |].
    rewrite len_snoc_pos, len_cons_pos, last_snoc. cbn [andb hd].
    eval_rule.
    destruct (isalpha a), (char_in a PUNCTUATION); reflexivity.
  - intros Hl ->. destruct (nonempty_last l Hl) as (s & a & ->).
    rewrite andb_false_r, last_snoc. change (len (@nil char) =? 0) with true.
    cbv iota. eval_rule. now destruct (isalpha a).
  - intros -> Hr. destruct r as [| b r']; [congruence |].
    change (len (@nil char)) with 0. change (0 <? 0) with false.
    cbn [andb]. now rewrite len_cons_nonzero.
Qed.

(** X6: the rule of the en dash.  Between two letters it is verified,
    however short the contexts; and where both contexts have two characters
    or more the verdict is: letters on both sides, or a letter and a blank
    before it and a blank and a letter after it. *)
Theorem en_dash_rule l r :
  (l <> [] -> r <> [] ->
   isalpha (last l 0) = true -> isalpha (hd 0 r) = true ->
   outcome (verify en_dash l r) = Ok true) /\
  (forall s a b c d r',
     l = s ++ [a; b] -> r = c :: d :: r' ->
     outcome (verify en_dash l r) =
     Ok ((isalpha b && isalpha c) ||
         (isalpha a && isspace b && isspace c && isalpha d))).
Proof.
  rewrite verify_en_dash. split.
  - intros Hl Hr. destruct (nonempty_last l Hl) as (s & a & ->).
    destruct r as [| b r']; [congruence |].
    rewrite last_snoc. cbn [hd]. intros Ha Hb.
    eval_rule. now rewrite Ha, Hb.
  - intros s a b c d r' -> ->. eval_rule.
    destruct (isalpha b), (isalpha c), (isalpha a), (isspace b), (isspace c);
      reflexivity.
Qed.

Lemma pad_left_idempotent l : pad_left (pad_left l) = pad_left l.
Proof.
  unfold pad_left at 1. pose proof (pad_left_len l) as H.
  apply Z.ltb_ge in H. now rewrite H.
Qed.

Lemma pad_right_idempotent r : pad_right (pad_right r) = pad_right r.
Proof.
  unfold pad_right at 1. pose proof (pad_right_len r) as H.
  apply Z.ltb_ge in H. now rewrite H.
Qed.

(** X7: for the ellipsis [verify] comes back with a verdict on every pair of
    contexts, the empty ones too, and raises nothing; a context shorter than
    two characters counts as the same context filled up with spaces. *)
Theorem hellip_always_answers l r :
  (exists verdict, outcome (verify hellip l r) = Ok verdict) /\
  verify hellip l r = verify hellip (pad_left l) (pad_right r) /\
  (len l < 2 -> pad_left l = repeat 32 (Z.to_nat (2 - len l)) ++ l) /\
  (len r < 2 -> pad_right r = r ++ repeat 32 (Z.to_nat (2 - len r))).
Proof.
  split; [| split; [| split]].
  - eexists. apply hellip_verdict.
  - rewrite !verify_hellip. cbv zeta.
    now rewrite pad_left_idempotent, pad_right_idempotent.
  - intros H. unfold pad_left. apply Z.ltb_lt in H. now rewrite H.
  - intros H. unfold pad_right. apply Z.ltb_lt in H. now rewrite H.
Qed.

(** *** What [verify] writes *)

Lemma quiet_bind {A B} (m : M A) (f : A -> M B) :
  quiet m -> (forall a, quiet (f a)) -> quiet (bind m f).
Proof.
  forget_runtime.
  unfold quiet. intros Hm Hf. rewrite log_bind, forallb_app, Hm.
  destruct (outcome m); [apply Hf | reflexivity].
Qed.

Lemma quiet_ret {A} (a : A) : quiet (ret a).
Proof. reflexivity. Qed.

Lemma quiet_at sd s i : quiet (at_ sd s i).
Proof. reflexivity. Qed.

Lemma quiet_fmap {A B} (f : A -> B) m : quiet m -> quiet (fmap f m).
Proof.
  forget_runtime.
  intros H. apply quiet_bind; [exact H | intros a; apply quiet_ret].
Qed.

Lemma quiet_and a b : quiet a -> quiet b -> quiet (a &&& b).
Proof.
  forget_runtime.
  intros Ha Hb. apply quiet_bind; [exact Ha |].
  intros [|]; [exact Hb | apply quiet_ret].
Qed.

Lemma quiet_or a b : quiet a -> quiet b -> quiet (a ||| b).
Proof.
  forget_runtime.
  intros Ha Hb. apply quiet_bind; [exact Ha |].
  intros [|]; [apply quiet_ret | exact Hb].
Qed.

Ltac quiet_rule :=
  unfold alpha_or_punct, alpha, space, is_;
  repeat first [apply quiet_and | apply quiet_or | apply quiet_fmap
               | apply quiet_at | apply quiet_ret].

Lemma verify_quiet character l r :
  In character defined -> quiet (verify character l r).
Proof.
  intros Hc. cbn in Hc.
  destruct Hc as [<- | [<- | [<- | [<- | [<- | [<- | [<- | []]]]]]]].
  - rewrite verify_en_dash. quiet_rule.
  - rewrite verify_em_dash. quiet_rule.
  - rewrite (verify_left_quote lsquo) by (now left).
    destruct ((0 <? len l) && (0 <? len r)); [quiet_rule |].
    destruct (len l =? 0); quiet_rule.
  - rewrite verify_rsquo.
    destruct ((0 <? len l) && (0 <? len r)); [quiet_rule |].
    destruct (len r =? 0); quiet_rule.
  - rewrite (verify_left_quote ldquo) by (now right).
    destruct ((0 <? len l) && (0 <? len r)); [quiet_rule |].
    destruct (len l =? 0); quiet_rule.
  - rewrite verify_rdquo.
    destruct ((0 <? len l) && (0 <? len r)); [quiet_rule |].
    destruct (len r =? 0); quiet_rule.
  - rewrite verify_hellip. cbv zeta. quiet_rule.
Qed.

Lemma quiet_channels (t : list event) :
  forallb is_subscript t = true -> stdout_of t = [] /\ stderr_of t = [].
Proof.
  forget_runtime.
  induction t as [| e t IH]; [auto |]. cbn [forallb].
  rewrite andb_true_iff. intros (He & Ht). destruct e; try discriminate.
  cbn. now apply IH.
Qed.

(** X8: for the seven characters with a rule [verify] writes nothing, on
    neither channel; the message on standard error is for the characters
    without a rule, and only for them. *)
Theorem verify_writes_only_for_undefined character l r :
  (In character defined ->
   stdout_of (log (verify character l r)) = [] /\
   stderr_of (log (verify character l r)) = []) /\
  (~ In character defined ->
   stdout_of (log (verify character l r)) = [] /\
   stderr_of (log (verify character l r)) = undefined_message character ++ [10]).
Proof.
  split.
  - intros H. apply quiet_channels. now apply verify_quiet.
  - intros H. apply char_in_false in H.
    rewrite (verify_undefined _ l r H). cbn. now rewrite app_nil_r.
Qed.

(** ** The report on a character *)

Lemma stdout_of_app t1 t2 : stdout_of (t1 ++ t2) = stdout_of t1 ++ stdout_of t2.
Proof.
  forget_runtime.
  induction t1 as [| e t1 IH]; [reflexivity |].
  destruct e; cbn; rewrite IH; [reflexivity | | reflexivity].
  now rewrite app_assoc.
Qed.

Lemma verify_stdout character l r : stdout_of (log (verify character l r)) = [].
Proof.
  destruct (char_in character defined) eqn:E.
  - apply char_in_spec in E. apply quiet_channels. now apply verify_quiet.
  - now rewrite (verify_undefined _ l r E).
Qed.

Lemma check_position_answered item line position st :
  answers_at item line position ->
  outcome (check_position item line position st) =
  Ok (if verdict_at item line position then st
      else {| any_unverified := true;
              unverified_this_line := true;
              buffer := buffer st ++
                        flagged position (left_of line position) item
                          (right_of line position) |}) /\
  stdout_of (log (check_position item line position st)) = [].
Proof.
  intros (verdict & E). unfold check_position, verdict_at.
  rewrite outcome_bind, log_bind, stdout_of_app, verify_stdout, E.
  now destruct verdict.
Qed.

Lemma filter_none {A} (f : A -> bool) l :
  filter (fun x => negb (f x)) l = [] <-> forallb f l = true.
Proof.
  forget_runtime.
  induction l as [| x l IH]; cbn; [tauto |].
  destruct (f x); cbn; [exact IH |]. split; discriminate.
Qed.

Lemma check_positions_answered item line positions : forall st,
  (forall position, In position positions -> answers_at item line position) ->
  outcome (check_positions item line positions st) =
  Ok {| any_unverified :=
          any_unverified st || negb (forallb (verdict_at item line) positions);
        unverified_this_line :=
          unverified_this_line st ||
          negb (forallb (verdict_at item line) positions);
        buffer :=
          buffer st ++
          flagged_all item line
            (filter (fun position => negb (verdict_at item line position))
               positions) |} /\
  stdout_of (log (check_positions item line positions st)) = [].
Proof.
  induction positions as [| position rest IH]; intros st H.
  - cbn. rewrite !orb_false_r, app_nil_r. now destruct st.
  - cbn [check_positions].
    destruct (check_position_answered item line position st
                (H position (or_introl eq_refl))) as (E1 & E2).
    rewrite outcome_bind, log_bind, stdout_of_app, E1, E2.
    cbn [forallb filter app].
    match goal with
    | |- context [check_positions item line rest ?s] =>
        destruct (IH s (fun q Hq => H q (or_intror Hq))) as (E3 & E4)
    end.
    rewrite E3, E4. split; [| reflexivity].
    destruct (verdict_at item line position); cbn [negb andb];
      [reflexivity |].
    cbn [any_unverified unverified_this_line buffer flagged_all map List.concat].
    rewrite !orb_true_r. cbn [orb]. unfold flagged_all.
    now rewrite <- app_assoc.
Qed.

Lemma findall_from_absent i s c :
  char_in c s = false -> findall_from i s c = [].
Proof.
  forget_runtime.
  revert i. induction s as [| x s IH]; intros i H; [reflexivity |].
  cbn in *. rewrite (Z.eqb_sym x c).
  destruct (c =? x); [discriminate | now apply IH].
Qed.

Lemma check_line_answered item index line flags :
  (forall position,
     In position (findall (rstrip_nl line) item) ->
     answers_at item (rstrip_nl line) position) ->
  outcome (check_line item index line flags) =
  Ok (fst flags || char_in item (rstrip_nl line),
      snd flags || match unverified_in item (rstrip_nl line) with
                   | [] => false
                   | _ => true
                   end) /\
  stdout_of (log (check_line item index line flags)) =
  line_findings item index line.
Proof.
  intros H. unfold check_line, line_findings, unverified_in.
  set (stripped := rstrip_nl line) in *.
  destruct (char_in item stripped) eqn:Hin.
  - match goal with
    | |- context [check_positions item stripped _ ?s] =>
        destruct (check_positions_answered item stripped _ s H) as (E1 & E2)
    end.
    rewrite !outcome_bind, !log_bind, !stdout_of_app, E1, E2.
    cbn [any_unverified unverified_this_line buffer orb].
    pose proof (filter_none (verdict_at item stripped) (findall stripped item))
      as Hnone.
    destruct (forallb (verdict_at item stripped) (findall stripped item)).
    + rewrite (proj2 Hnone eq_refl).
      cbn [negb outcome log ret fst snd stdout_of app].
      rewrite !orb_false_r, orb_true_r. split; reflexivity.
    + assert (Hsome : filter (fun position =>
                                negb (verdict_at item stripped position))
                        (findall stripped item) <> []).
      { intros Ef. apply Hnone in Ef. discriminate. }
      destruct (filter _ (findall stripped item)) as [| q qs]; [congruence |].
      unfold print.
      cbn [negb outcome log ret fst snd stdout_of app].
      rewrite !orb_true_r. split; [reflexivity |].
      unfold bind, ret. cbn [log fst snd stdout_of app].
      now rewrite ?app_nil_r, <- ?app_assoc.
  - unfold findall. rewrite (findall_from_absent 0 _ _ Hin).
    cbn [filter outcome log ret fst snd stdout_of].
    rewrite !orb_false_r. now destruct flags.
Qed.

Lemma check_lines_answered item lines : forall i flags,
  (forall line position,
     In line lines -> In position (findall (rstrip_nl line) item) ->
     answers_at item (rstrip_nl line) position) ->
  outcome (check_lines item (enumerate_from i lines) flags) =
  Ok (fst flags || existsb (fun line => char_in item (rstrip_nl line)) lines,
      snd flags ||
      negb (forallb (fun line => match unverified_in item (rstrip_nl line) with
                                 | [] => true
                                 | _ => false
                                 end) lines)) /\
  stdout_of (log (check_lines item (enumerate_from i lines) flags)) =
  List.concat (map (fun il => line_findings item (fst il) (snd il))
                 (enumerate_from i lines)).
Proof.
  induction lines as [| line lines IH]; intros i flags H.
  - cbn. rewrite !orb_false_r. now destruct flags.
  - cbn [enumerate_from check_lines map List.concat existsb forallb fst snd].
    destruct (check_line_answered item i line flags
                (fun q Hq => H line q (or_introl eq_refl) Hq)) as (E1 & E2).
    rewrite outcome_bind, log_bind, stdout_of_app, E1, E2.
    match goal with
    | |- context [check_lines item _ ?f] =>
        destruct (IH (i + 1) f (fun l q Hl Hq => H l q (or_intror Hl) Hq))
          as (E3 & E4)
    end.
    rewrite E3, E4. cbn [fst snd]. split; [| reflexivity].
    rewrite <- !orb_assoc. f_equal. f_equal. f_equal.
    destruct (unverified_in item (rstrip_nl line)); cbn [andb negb orb];
      reflexivity.
Qed.

(** X9: the report of [runchecks] on one character, where [verify] answers
    on every occurrence: after the line "Searching for ..." come, from top
    to bottom, the lines in which an occurrence is not verified, each with
    the snippets of those occurrences and of no other; then "None found."
    when the character is in no line, "All occurrences verified." when it
    is and every occurrence is verified, and an empty line. *)
Theorem check_item_report lines item :
  (forall line position,
     In line lines -> In position (findall (rstrip_nl line) item) ->
     answers_at item (rstrip_nl line) position) ->
  outcome (check_item lines item) = Ok tt /\
  stdout_of (log (check_item lines item)) =
  searching item ++ [10] ++
  List.concat (map (fun il => line_findings item (fst il) (snd il))
                 (enumerate lines)) ++
  item_summary item lines ++ [10].
Proof.
  intros H. unfold check_item, item_summary, enumerate.
  destruct (check_lines_answered item lines 0 (false, false) H) as (E1 & E2).
  rewrite outcome_bind, log_bind, print_outcome.
  rewrite outcome_bind, log_bind, E1.
  rewrite !stdout_of_app, E2. cbn [fst snd orb].
  rewrite negb_involutive.
  destruct (existsb _ lines); cbn [negb].
  - destruct (forallb _ lines); unfold bind, print, ret;
      cbn [outcome log fst snd stdout_of app];
      rewrite ?app_nil_r, <- ?app_assoc; split; reflexivity.
  - unfold bind, print, ret. cbn [outcome log fst snd stdout_of app].
    rewrite ?app_nil_r, <- ?app_assoc. split; reflexivity.
Qed.

(** ** Runs that come to their end *)

Lemma snippet_lengths line position :
  0 <= position < len line ->
  len (left_of line position) = Z.min position SNIPPET_RADIUS /\
  len (right_of line position) =
  Z.min (len line - position - 1) SNIPPET_RADIUS.
Proof.
  forget_runtime.
  intros Hp. unfold left_of, right_of, slice, left_extent, SNIPPET_RADIUS, len in *.
  rewrite !length_firstn, !length_skipn.
  destruct (position <? 10) eqn:E;
    [apply Z.ltb_lt in E | apply Z.ltb_ge in E]; lia.
Qed.

Lemma answers_inside_line item line position :
  (In item defined -> inside_line line position) ->
  answers_at item line position.
Proof.
  intros H. unfold answers_at.
  destruct (char_in item defined) eqn:E.
  - apply char_in_spec in E. destruct (H E) as (H1 & H2).
    destruct (snippet_lengths line position) as (Hl & Hr); [lia |].
    apply verify_answers_on_long_contexts; [exact E | |];
      unfold SNIPPET_RADIUS in *; lia.
  - eexists. now rewrite (verify_undefined _ _ _ E).
Qed.

Lemma check_blanks_line_returns index line :
  outcome (check_blanks_line index line) = Ok tt.
Proof.
  forget_runtime.
  unfold check_blanks_line. cbv zeta.
  destruct (len (findall_blank (rstrip_nl line)) =? 0); [reflexivity |].
  rewrite for_each_print.
  destruct (0 <? len (blank_sequences (findall_blank (rstrip_nl line))));
    destruct (last (findall_blank (rstrip_nl line)) 0 =?
              len (rstrip_nl line) - 1); reflexivity.
Qed.

Lemma for_each_returns {A} (l : list A) body :
  (forall x, In x l -> outcome (body x) = Ok tt) ->
  outcome (for_each l body) = Ok tt.
Proof.
  forget_runtime.
  induction l as [| x l IH]; intros H; [reflexivity |].
  cbn [for_each]. rewrite outcome_bind, (H x (or_introl eq_refl)).
  apply IH. intros y Hy. apply H. now right.
Qed.

Lemma check_blanks_returns lines : outcome (check_blanks lines) = Ok tt.
Proof.
  forget_runtime.
  unfold check_blanks. rewrite outcome_bind, print_outcome.
  rewrite outcome_bind, for_each_returns; [reflexivity |].
  intros [index line] _. apply check_blanks_line_returns.
Qed.

Lemma check_periods_returns lines : outcome (check_periods lines) = Ok tt.
Proof.
  forget_runtime.
  unfold check_periods. rewrite outcome_bind, print_outcome.
  destruct (0 <? len (found_in_lines lines)); reflexivity.
Qed.

(** X10: [runchecks] comes to its end and returns 0 on every document in
    which each occurrence of a character that has a rule has two characters
    of its line or more on either side; an [IndexError] can only come from
    an occurrence closer to the start or to the end of its line. *)
Theorem runchecks_completes lines charlist :
  (forall item line position,
     In item charlist -> In item defined -> In line lines ->
     In position (findall (rstrip_nl line) item) ->
     inside_line (rstrip_nl line) position) ->
  outcome (runchecks lines charlist) = Ok 0.
Proof.
  intros H. unfold runchecks.
  rewrite outcome_bind, check_blanks_returns.
  rewrite outcome_bind, check_periods_returns.
  rewrite outcome_bind, for_each_returns; [reflexivity |].
  intros item Hitem.
  destruct (check_lines_answered item lines 0 (false, false)) as (E & _).
  { intros line position Hline Hpos. apply answers_inside_line.
    intros Hdef. now apply (H item line position). }
  unfold check_item, enumerate.
  rewrite outcome_bind, print_outcome, outcome_bind, E, outcome_bind.
  cbn [fst snd orb].
  match goal with
  | |- context [if ?b then _ else _] => destruct b
  end; [reflexivity |].
  match goal with
  | |- context [if ?b then _ else _] => destruct b
  end; reflexivity.
Qed.

(** ** Periods, when there is nothing to report *)

(** X11: when no line holds "..", "..." or ". . .", the check for periods
    prints that nothing was found, between its opening and its closing
    line, and no list of lines. *)
Theorem check_periods_clean lines :
  (forall line, In line lines -> bad_periods line = false) ->
  check_periods lines =
  ([Stdout (lit "Checking for bad periods and unconverted ellipses:" ++ [10]);
    Stdout (lit "   No bad periods or suspicious unconverted ellipses found."
            ++ [10]);
    Stdout (lit "Done with bad period and unconverted ellipsis check."
            ++ [10; 10])],
   Ok tt).
Proof.
  intros H. unfold check_periods.
  assert (E : found_in_lines lines = []).
  { destruct (found_in_lines lines) as [| n ns] eqn:Ef; [reflexivity |].
    assert (Hn : In n (found_in_lines lines)) by (rewrite Ef; now left).
    unfold found_in_lines, enumerate in Hn. apply found_from_in in Hn.
    destruct Hn as [[] | (k & line & Hk & Hb & _)].
    apply nth_error_In in Hk. rewrite (H line Hk) in Hb. discriminate. }
  rewrite E. unfold bind, print. cbn [len List.length Z.of_nat Z.ltb Z.compare].
  cbn [fst snd app]. now rewrite <- app_assoc.
Qed.

(** ** The characters [main] has checked *)

Lemma ascii_range c : In c (map Z.of_nat (seq 0 128)) <-> 0 <= c < 128.
Proof.
  forget_runtime.
  rewrite in_map_iff. split.
  - intros (n & <- & Hn). apply in_seq in Hn. lia.
  - intros H. exists (Z.to_nat c). split; [lia |]. apply in_seq. lia.
Qed.

Lemma union_in a0 l x : In x (fold_right set_add a0 l) <-> In x l \/ In x a0.
Proof.
  forget_runtime.
  induction l as [| y l IH]; cbn [fold_right In]; [tauto |].
  rewrite set_add_in, IH. intuition.
Qed.

Lemma union_nodup a0 l : NoDup a0 -> NoDup (fold_right set_add a0 l).
Proof.
  forget_runtime.
  intros H. induction l as [| y l IH]; [exact H |].
  cbn [fold_right]. now apply set_add_nodup.
Qed.

(** X12: the characters that [main] hands to [runchecks] are the characters
    of the inventory that are worth checking or lie outside ASCII, and no
    other; they come in ascending order, each once. *)
Theorem chars_to_check_members char_inventory :
  (forall c, In c (chars_to_check char_inventory) <->
             In c char_inventory /\
             (In c CHARS_WORTH_CHECKING \/ ~ (0 <= c < 128))) /\
  (NoDup char_inventory -> StronglySorted Z.lt (chars_to_check char_inventory)).
Proof.
  unfold chars_to_check. split.
  - intros c. rewrite sorted_in, union_in, !filter_In, negb_true_iff.
    rewrite <- ascii_range. split.
    + intros [(H1 & H2) | (H1 & H2)].
      * apply char_in_spec in H2. tauto.
      * split; [exact H1 |]. right. intros Hin.
        apply char_in_spec in Hin. congruence.
    + intros (H1 & [H2 | H2]).
      * left. split; [exact H1 | now apply char_in_spec].
      * right. split; [exact H1 | now apply char_in_false].
  - intros H. apply sorted_ascending. apply union_nodup.
    now apply NoDup_filter.
Qed.

(** X13: the exit status of [main] is 0 or 1, and it is 0 only when there
    are two arguments, the path is a file, the file is read, and
    [runchecks] returns on its lines. *)
Theorem exit_status_of_main w :
  (exit_status (snd (main w)) = 0 \/ exit_status (snd (main w)) = 1) /\
  (exit_status (snd (main w)) = 0 ->
   len (argv w) = 2 /\
   isfile w (nth 1 (argv w) []) = true /\
   exists lines,
     readlines w (nth 1 (argv w) []) = Lines lines /\
     outcome (runchecks lines (chars_to_check (getinventory lines))) = Ok 0).
Proof.
  unfold main.
  destruct (len (argv w) =? 2) eqn:Ea; cbn [negb];
    [apply Z.eqb_eq in Ea | split; [now right | discriminate]].
  destruct (isfile w (nth 1 (argv w) [])) eqn:Ef; cbn [negb];
    [| split; [now right | discriminate]].
  destruct (readlines w (nth 1 (argv w) [])) as [lines | |] eqn:Er;
    [| split; [now right | discriminate] ..].
  destruct (runchecks lines _) as [t [code | e]] eqn:Erun;
    [| split; [now right | discriminate]].
  assert (Hcode : code = 0).
  { apply (runchecks_returns_zero lines (chars_to_check (getinventory lines))).
    now rewrite Erun. }
  subst code. cbn [Z.eqb snd exit_status]. split; [now left |].
  intros _. split; [exact Ea |]. split; [reflexivity |].
  exists lines. split; [reflexivity |]. now rewrite Erun.
Qed.

End Properties.

(** * The sample runs *)

Lemma em_dash_rule_said_truly :
  lit "He said" <> [] /\ lit "truly" <> [] /\
  outcome (@verify sample_runtime em_dash (lit "He said") (lit "truly")) =
  Ok (@isalpha sample_runtime (last (lit "He said") 0) &&
      @isalpha sample_runtime (hd 0 (lit "truly"))).
Proof.
  assert (Hl : lit "He said" <> []) by (cbv; discriminate).
  assert (Hr : lit "truly" <> []) by (cbv; discriminate).
  split; [exact Hl |]. split; [exact Hr |].
  exact (proj1 (@em_dash_rule sample_runtime (lit "He said") (lit "truly")
                  Hl Hr)).
Defined.

Lemma straight_quote_is_flagged :
  ~ In 34 defined /\
  @verify sample_runtime 34 (lit "say ") (lit "yes") =
  ([Stderr (undefined_message 34 ++ [10])], Ok false).
Proof.
  assert (H : ~ In 34 defined).
  { cbn. intros H. repeat (destruct H as [H | H]; [discriminate H |]).
    exact H. }
  split; [exact H |].
  exact (proj1 (@undefined_character_is_flagged sample_runtime 34 H)
           (lit "say ") (lit "yes")).
Defined.

Lemma en_dash_after_one_digit :
  outcome (@en_dash_joins_letters sample_runtime (lit "1") (lit "x")) = Ok false /\
  outcome (@verify sample_runtime en_dash (lit "1") (lit "x")) = Raise IndexError.
Proof.
  assert (H : outcome (@en_dash_joins_letters sample_runtime (lit "1") (lit "x"))
              = Ok false) by reflexivity.
  split; [exact H |].
  exact (proj2 (proj2 (@en_dash_second_disjunct sample_runtime (lit "1")
                         (lit "x") H)) eq_refl).
Defined.

Lemma flagged_lines_of_manuscript :
  found_in_lines manuscript <> [] /\
  stdout_of (log (check_periods manuscript)) =
  lit "Checking for bad periods and unconverted ellipses:" ++ [10] ++
  lit "   Possible bad periods or unconverted ellipses found in lines:" ++ [10] ++
  lit "   2" ++ [10] ++
  lit "Done with bad period and unconverted ellipsis check." ++ [10; 10].
Proof.
  assert (H : found_in_lines manuscript <> []) by (vm_compute; discriminate).
  split; [exact H |].
  destruct (literal_ellipsis_checker manuscript) as (_ & _ & _ & E & _).
  rewrite (E H). reflexivity.
Defined.

Lemma no_blank_no_report :
  (forall c, In c (lit "word") -> isspace c = false) /\
  blank_report 1 (lit "word") = [].
Proof.
  assert (H : forall c, In c (lit "word") -> isspace c = false).
  { intros c Hc. cbn in Hc.
    repeat (destruct Hc as [<- | Hc]; [reflexivity |]). destruct Hc. }
  split; [exact H |].
  exact (proj1 (proj2 (blank_space_checker [])) 1 (lit "word") H).
Defined.

Lemma exit_code_of_morning_run :
  len (argv morning) = 2 /\
  isfile morning (nth 1 (argv morning) []) = true /\
  readlines morning (nth 1 (argv morning) []) = Lines manuscript /\
  snd (sample_main morning) = Exit 0.
Proof.
  repeat (split; [reflexivity |]).
  destruct (@exit_codes sample_runtime morning) as (_ & _ & _ & _ & H).
  apply (H manuscript 0); reflexivity.
Defined.

Lemma morning_and_evening_reports :
  same_input morning evening /\
  snd (sample_main morning) = snd (sample_main evening).
Proof.
  assert (H : same_input morning evening) by (repeat split).
  split; [exact H |].
  exact (proj1 (@same_report_but_for_the_time sample_runtime morning evening H)).
Defined.

(** C10, as stated, at the left context "a1" and the right context "b": the
    first disjunct is false, the second character of the right context is
    not subscripted (there is none), and the verdict is [False]. *)
Lemma en_dash_right_context_untouched :
  outcome (@en_dash_joins_letters sample_runtime (lit "a1") (lit "b")) = Ok false /\
  ~ subscripted Right_context 1
      (log (@verify sample_runtime en_dash (lit "a1") (lit "b"))) /\
  @verify sample_runtime en_dash (lit "a1") (lit "b") =
  ([Subscript Left_context (-1); Subscript Left_context (-2);
    Subscript Left_context (-1)], Ok false).
Proof.
  split; [reflexivity |]. split; [| reflexivity].
  unfold subscripted. cbn. intros H.
  repeat (destruct H as [H | H]; [discriminate H |]). exact H.
Qed.

(** C9, as stated, on the manuscript checked in the morning and in the
    evening: same arguments, same file, and the two reports differ. *)
Lemma reports_differ_by_the_time :
  same_input morning evening /\
  stdout_of (fst (sample_main morning)) <> stdout_of (fst (sample_main evening)).
Proof.
  split; [repeat split |].
  intros H. apply (f_equal (fun s => nth 22 s 0)) in H.
  vm_compute in H. discriminate H.
Qed.

(** ** Sample runs for the further properties *)

Lemma snippets_around_first_dash :
  0 <= 7 /\ nth_error he_said (Z.to_nat 7) = Some em_dash /\
  len (left_of he_said 7) = Z.min 7 SNIPPET_RADIUS /\
  len (right_of he_said 7) = Z.min (len he_said - 7 - 1) SNIPPET_RADIUS.
Proof.
  assert (H1 : 0 <= 7) by lia.
  assert (H2 : nth_error he_said (Z.to_nat 7) = Some em_dash) by reflexivity.
  split; [exact H1 |]. split; [exact H2 |].
  exact (proj2 (snippets_around he_said 7 em_dash H1 H2)).
Defined.

Lemma apostrophe_in_dont :
  lit "don" <> [] /\ lit "t" <> [] /\
  outcome (@verify sample_runtime rsquo (lit "don") (lit "t")) =
  Ok ((@closes_word sample_runtime (last (lit "don") 0) &&
       isspace (hd 0 (lit "t"))) ||
      (@isalpha sample_runtime (last (lit "don") 0) &&
       @isalpha sample_runtime (hd 0 (lit "t")))).
Proof.
  assert (Hl : lit "don" <> []) by (cbv; discriminate).
  assert (Hr : lit "t" <> []) by (cbv; discriminate).
  split; [exact Hl |]. split; [exact Hr |].
  exact (proj1 (@right_single_quote_rule sample_runtime (lit "don") (lit "t"))
           Hl Hr).
Defined.

Lemma closing_quote_after_full_stop :
  lit "yes." <> [] /\ lit " he" <> [] /\
  outcome (@verify sample_runtime rdquo (lit "yes.") (lit " he")) =
  Ok (@closes_word sample_runtime (last (lit "yes.") 0) &&
      isspace (hd 0 (lit " he"))).
Proof.
  assert (Hl : lit "yes." <> []) by (cbv; discriminate).
  assert (Hr : lit " he" <> []) by (cbv; discriminate).
  split; [exact Hl |]. split; [exact Hr |].
  exact (proj1 (@right_double_quote_rule sample_runtime (lit "yes.") (lit " he"))
           Hl Hr).
Defined.

Lemma en_dash_between_two_letters :
  lit "a" <> [] /\ lit "b" <> [] /\
  outcome (@verify sample_runtime en_dash (lit "a") (lit "b")) = Ok true.
Proof.
  assert (Hl : lit "a" <> []) by (cbv; discriminate).
  assert (Hr : lit "b" <> []) by (cbv; discriminate).
  split; [exact Hl |]. split; [exact Hr |].
  exact (proj1 (@en_dash_rule sample_runtime (lit "a") (lit "b"))
           Hl Hr eq_refl eq_refl).
Defined.

Lemma hellip_at_start_of_line :
  len (@nil char) < 2 /\ pad_left [] = [32; 32].
Proof.
  assert (H : len (@nil char) < 2) by (cbv; reflexivity).
  split; [exact H |].
  exact (proj1 (proj2 (proj2 (@hellip_always_answers sample_runtime [] []))) H).
Defined.

Lemma em_dash_writes_nothing :
  In em_dash defined /\
  stdout_of (log (@verify sample_runtime em_dash (lit "said") (lit "truly"))) = [] /\
  stderr_of (log (@verify sample_runtime em_dash (lit "said") (lit "truly"))) = [].
Proof.
  assert (H : In em_dash defined) by (cbn; tauto).
  split; [exact H |].
  exact (proj1 (@verify_writes_only_for_undefined sample_runtime em_dash
                  (lit "said") (lit "truly")) H).
Defined.

Lemma dashes_of_he_said_answer line position :
  In line [he_said] -> In position (findall (rstrip_nl line) em_dash) ->
  @answers_at sample_runtime em_dash (rstrip_nl line) position.
Proof.
  intros [<- | []] Hp. change (findall (rstrip_nl he_said) em_dash) with [7; 13] in Hp.
  destruct Hp as [<- | [<- | []]]; exists true; reflexivity.
Defined.

Lemma report_on_he_said :
  outcome (@check_item sample_runtime [he_said] em_dash) = Ok tt.
Proof.
  exact (proj1 (@check_item_report sample_runtime [he_said] em_dash
                  dashes_of_he_said_answer)).
Defined.

Lemma dashes_of_he_said_inside item line position :
  In item [em_dash] -> In item defined -> In line [he_said] ->
  In position (findall (rstrip_nl line) item) ->
  inside_line (rstrip_nl line) position.
Proof.
  intros [<- | []] _ [<- | []] Hp.
  change (findall (rstrip_nl he_said) em_dash) with [7; 13] in Hp.
  destruct Hp as [<- | [<- | []]];
    (split; [apply Z.leb_le | apply Z.ltb_lt]; reflexivity).
Defined.

Lemma runchecks_on_he_said :
  outcome (@runchecks sample_runtime [he_said] [em_dash]) = Ok 0.
Proof.
  exact (@runchecks_completes sample_runtime [he_said] [em_dash]
           dashes_of_he_said_inside).
Defined.

Lemma no_periods_in_fine :
  (forall line, In line [lit "fine"] -> bad_periods line = false) /\
  stdout_of (log (check_periods [lit "fine"])) =
  lit "Checking for bad periods and unconverted ellipses:" ++ [10] ++
  lit "   No bad periods or suspicious unconverted ellipses found." ++ [10] ++
  lit "Done with bad period and unconverted ellipsis check." ++ [10; 10].
Proof.
  assert (H : forall line, In line [lit "fine"] -> bad_periods line = false).
  { intros line [<- | []]. reflexivity. }
  split; [exact H |].
  rewrite (check_periods_clean [lit "fine"] H). reflexivity.
Defined.

Lemma chars_to_check_of_three :
  NoDup [97; 8212; 34] /\
  StronglySorted Z.lt (chars_to_check [97; 8212; 34]).
Proof.
  assert (H : NoDup [97; 8212; 34]).
  { repeat constructor; cbn; intuition discriminate. }
  split; [exact H |].
  exact (proj2 (chars_to_check_members [97; 8212; 34]) H).
Defined.

Lemma morning_run_has_read_its_file :
  exit_status (snd (sample_main morning)) = 0 /\
  len (argv morning) = 2.
Proof.
  assert (H : exit_status (snd (sample_main morning)) = 0) by reflexivity.
  split; [exact H |].
  exact (proj1 (proj2 (@exit_status_of_main sample_runtime morning) H)).
Defined.

Lemma opening_quote_before_word :
  lit "said " <> [] /\ lit "yes" <> [] /\
  outcome (@verify sample_runtime ldquo (lit "said ") (lit "yes")) =
  Ok (isspace (last (lit "said ") 0) &&
      @isalpha sample_runtime (hd 0 (lit "yes"))).
Proof.
  assert (Hl : lit "said " <> []) by (cbv; discriminate).
  assert (Hr : lit "yes" <> []) by (cbv; discriminate).
  split; [exact Hl |]. split; [exact Hr |].
  exact (proj1 (@left_quote_rule sample_runtime ldquo (lit "said ") (lit "yes")
                  (or_intror eq_refl)) Hl Hr).
Defined.
